(** * Loan data cleaning: a shallow embedding of [scripts/data_cleaning.py]

    The script cleans a pandas DataFrame of loan applications in five
    stages: [remove_duplicates], [handle_missing_values],
    [standardize_formats], [validate_data_ranges] and
    [add_calculated_fields].  A DataFrame is modelled as the list of its
    rows in index order, a row as a record of optional cells ([None] is
    pandas' NaN / NaT), a numeric cell as a rational number, a text cell
    as a string of ASCII characters.  Numeric columns hold finite
    numbers or NaN, date columns texts, timestamps or NaN.  The two
    columns the [.str] accessor is used on carry their dtype next to
    the table: a column in which the loader found no text is a
    [float64] column, on which the accessor raises.  [pd.to_datetime]
    is a parameter that is given the texts of the column next to the
    text it parses.  Each stage is translated from its Python body;
    what a stage prints is returned next to its table. *)

From Stdlib Require Import Bool Arith ZArith QArith Qround Qabs List Sorted Ascii String Lia Lqa.
Import ListNotations.

Local Open Scope string_scope.

(** ** Text cells: [str.lower], [str.title], [str.strip] *)

Module Text.

Definition code (c : ascii) : nat := nat_of_ascii c.

Definition is_upper (c : ascii) : bool :=
  (65 <=? code c)%nat && (code c <=? 90)%nat.

Definition is_lower (c : ascii) : bool :=
  (97 <=? code c)%nat && (code c <=? 122)%nat.

(** Python's [_PyUnicode_IsCased], on the ASCII range. *)
Definition is_cased (c : ascii) : bool := is_upper c || is_lower c.

Definition to_lower (c : ascii) : ascii :=
  if is_upper c then ascii_of_nat (code c + 32) else c.

Definition to_upper (c : ascii) : ascii :=
  if is_lower c then ascii_of_nat (code c - 32) else c.

(** Python's [str.isspace] on the ASCII range: TAB..CR, FS..US, SPACE. *)
Definition is_space (c : ascii) : bool :=
  ((9 <=? code c)%nat && (code c <=? 13)%nat)
  || ((28 <=? code c)%nat && (code c <=? 32)%nat).

(** [str.lower] *)
Fixpoint lower (s : string) : string :=
  match s with
  | EmptyString => EmptyString
  | String c s' => String (to_lower c) (lower s')
  end.

(** [str.title]: CPython walks the string with a flag
    [previous_is_cased]; a character after a cased one is lower-cased,
    any other character is title-cased (upper-cased). *)
Fixpoint title_from (previous_is_cased : bool) (s : string) : string :=
  match s with
  | EmptyString => EmptyString
  | String c s' =>
      String (if previous_is_cased then to_lower c else to_upper c)
             (title_from (is_cased c) s')
  end.

Definition title (s : string) : string := title_from false s.

(** [str.lstrip], [str.rstrip], [str.strip] with no argument. *)
Fixpoint lstrip (s : string) : string :=
  match s with
  | EmptyString => EmptyString
  | String c s' => if is_space c then lstrip s' else s
  end.

Fixpoint rstrip (s : string) : string :=
  match s with
  | EmptyString => EmptyString
  | String c s' =>
      match rstrip s' with
      | EmptyString => if is_space c then EmptyString else String c EmptyString
      | r => String c r
      end
  end.

Definition strip (s : string) : string := rstrip (lstrip s).

(** The reading of title case that upper-cases the first character of
    every whitespace-separated word and leaves the other characters as
    they are; [at_word_start] says that the previous character was
    whitespace (or that there is none). *)
Fixpoint title_words_from (at_word_start : bool) (s : string) : string :=
  match s with
  | EmptyString => EmptyString
  | String c s' =>
      String (if at_word_start then to_upper c else c)
             (title_words_from (is_space c) s')
  end.

Definition title_words (s : string) : string := title_words_from true s.

(** The same reading, lower-casing the characters that are not first
    in their word. *)
Fixpoint capitalize_words_from (at_word_start : bool) (s : string) : string :=
  match s with
  | EmptyString => EmptyString
  | String c s' =>
      String (if at_word_start then to_upper c else to_lower c)
             (capitalize_words_from (is_space c) s')
  end.

Definition capitalize_words (s : string) : string :=
  capitalize_words_from true s.

(** No whitespace at the start. *)
Definition starts_clean (s : string) : bool :=
  match s with
  | EmptyString => true
  | String c _ => negb (is_space c)
  end.

End Text.

(** ** [standardize_formats]: the loan status cell *)

(** The dictionary [status_mapping], in source order. *)
Definition status_mapping : list (string * string) :=
  [ ("fully paid", "Fully Paid");
    ("current", "Current");
    ("charged off", "Charged Off");
    ("late (31-120 days)", "Late (31-120 days)");
    ("late (16-30 days)", "Late (16-30 days)") ].

(** [d.get(x, default)] on a dictionary given by its items. *)
Fixpoint dict_get (d : list (string * string)) (x default : string) : string :=
  match d with
  | [] => default
  | (k, v) :: d' => if String.eqb k x then v else dict_get d' x default
  end.

Definition dict_mem (d : list (string * string)) (x : string) : bool :=
  existsb (fun kv => String.eqb (fst kv) x) d.

(** [lambda x: status_mapping.get(x, x.title())] *)
Definition map_status (x : string) : string :=
  dict_get status_mapping x (Text.title x).

(** What the two assignments to [df['loan_status']] do to a text cell:
    [.str.lower().map(...)], then [.str.strip()]. *)
Definition standardize_status (raw : string) : string :=
  Text.strip (map_status (Text.lower raw)).

(** The status rule in the words of the specification: look the
    lower-cased text up, fall back to the raw text with the first letter
    of each whitespace-separated word in upper case, then trim.  It is
    compared with [standardize_status] below. *)
Definition standardize_status_by_words (raw : string) : string :=
  Text.strip
    (if dict_mem status_mapping (Text.lower raw)
     then dict_get status_mapping (Text.lower raw) EmptyString
     else Text.title_words raw).

(** The same rule with the rest of each word lower-cased. *)
Definition standardize_status_by_capitalized_words (raw : string) : string :=
  Text.strip
    (if dict_mem status_mapping (Text.lower raw)
     then dict_get status_mapping (Text.lower raw) EmptyString
     else Text.capitalize_words raw).


(** ** Numeric cells *)

Local Open Scope Q_scope.

Definition Qltb (x y : Q) : bool := (Qnum x * QDen y <? Qnum y * QDen x)%Z.
Definition Qleb (x y : Q) : bool := (Qnum x * QDen y <=? Qnum y * QDen x)%Z.

(** A comparison with NaN is [False]: an absent cell fails every test. *)
Definition cell_gt (c : option Q) (bound : Q) : bool :=
  match c with Some v => Qltb bound v | None => false end.

Definition cell_ge (c : option Q) (bound : Q) : bool :=
  match c with Some v => Qleb bound v | None => false end.

Definition cell_le (c : option Q) (bound : Q) : bool :=
  match c with Some v => Qleb v bound | None => false end.

Definition isnull {A : Type} (c : option A) : bool :=
  match c with Some _ => false | None => true end.

Definition notnull {A : Type} (c : option A) : bool := negb (isnull c).

(** [Series.fillna(value)]; filling with NaN leaves the cell as it is. *)
Definition fillna {A : Type} (value : option A) (c : option A) : option A :=
  match c with Some _ => c | None => value end.

(** Arithmetic on cells: NaN is absorbing.  A division by zero gives
    [inf] or NaN in pandas; the model has no infinite value and returns
    the absent cell there. *)
Definition cell_mul (a b : option Q) : option Q :=
  match a, b with Some x, Some y => Some (x * y) | _, _ => None end.

Definition cell_sub (a b : option Q) : option Q :=
  match a, b with Some x, Some y => Some (x - y) | _, _ => None end.

Definition cell_div (a b : option Q) : option Q :=
  match a, b with
  | Some x, Some y => if Qeq_bool y 0 then None else Some (x / y)
  | _, _ => None
  end.

(** [numpy.rint]: to the nearest integer, a tie to the even one. *)
Definition rint (x : Q) : Z :=
  let f := Qfloor x in
  let twice_frac := 2 * (x - inject_Z f) in
  if Qltb twice_frac 1 then f
  else if Qltb 1 twice_frac then (f + 1)%Z
  else if Z.even f then f else (f + 1)%Z.

Definition pow10 (decimals : nat) : Q := inject_Z (10 ^ Z.of_nat decimals).

(** [Series.round(decimals)], as numpy computes it:
    [rint(x * 10**decimals) / 10**decimals], here in exact arithmetic.
    The code computes the quotient, the product, the difference and
    this rounding in [float64]; where the exact value lies halfway
    between two neighbours (1005 / 20000 at 4 decimals) the
    [float64] product can fall on either side of the tie, and the
    stored value can be the other neighbour.  The derived values are
    used below through their order, their presence and their being left
    alone by a second rounding, not through the side a tie goes to. *)
Definition round_to (decimals : nat) (x : Q) : Q :=
  inject_Z (rint (x * pow10 decimals)) / pow10 decimals.

Definition cell_round (decimals : nat) (c : option Q) : option Q :=
  option_map (round_to decimals) c.

(** [Series.median()]: NaN cells are skipped, the rest is sorted, and the
    middle value (the mean of the two middle values for an even count)
    is returned; NaN when nothing is left. *)
Fixpoint insert_sorted (x : Q) (l : list Q) : list Q :=
  match l with
  | [] => [x]
  | y :: l' => if Qleb x y then x :: l else y :: insert_sorted x l'
  end.

Definition sort_values (l : list Q) : list Q := fold_right insert_sorted [] l.

Fixpoint dropna_values (col : list (option Q)) : list Q :=
  match col with
  | [] => []
  | Some v :: col' => v :: dropna_values col'
  | None :: col' => dropna_values col'
  end.

Definition median (col : list (option Q)) : option Q :=
  let s := sort_values (dropna_values col) in
  let n := List.length s in
  match n with
  | O => None
  | _ => if Nat.odd n then Some (nth (n / 2) s 0)
         else Some ((nth (n / 2 - 1) s 0 + nth (n / 2) s 0) / 2)
  end.

(** How many values of [l] pass the test [f]. *)
Definition count_where (f : Q -> bool) (l : list Q) : nat :=
  List.length (filter f l).

(** ** [pandas.cut] with [right=True], [include_lowest=False] *)

Inductive bin_edge : Type :=
| Edge (q : Q)
| PosInf.

Definition edge_ltb (e : bin_edge) (x : Q) : bool :=
  match e with Edge q => Qltb q x | PosInf => false end.

(** [bins.searchsorted(x, side='left')] on increasing [bins]: the number
    of edges strictly below [x]. *)
Fixpoint searchsorted_left (bins : list bin_edge) (x : Q) : nat :=
  match bins with
  | [] => O
  | e :: bins' => if edge_ltb e x then S (searchsorted_left bins' x) else O
  end.

Definition cut (c : option Q) (bins : list bin_edge) (labels : list string)
  : option string :=
  match c with
  | None => None
  | Some x =>
      let ids := searchsorted_left bins x in
      if (ids =? 0)%nat || (ids =? List.length bins)%nat then None
      else nth_error labels (ids - 1)
  end.

Definition loan_category_bins : list bin_edge :=
  [Edge 0; Edge 10000; Edge 25000; PosInf].
Definition loan_category_labels : list string := ["Small"; "Medium"; "Large"].

Definition credit_band_bins : list bin_edge :=
  [Edge 0; Edge 600; Edge 650; Edge 700; Edge 750; Edge 850].
Definition credit_band_labels : list string :=
  ["Very Poor"; "Poor"; "Fair"; "Good"; "Excellent"].

(** ** Date cells *)

(** A date cell holds the text read from the file or, once
    [pd.to_datetime] has run on the column, a timestamp. *)
Inductive date_value : Type :=
| RawDate (text : string)
| Timestamp (t : Z).

Definition date_value_eqb (a b : date_value) : bool :=
  match a, b with
  | RawDate s, RawDate s' => String.eqb s s'
  | Timestamp t, Timestamp t' => Z.eqb t t'
  | _, _ => false
  end.

(** ** Rows and tables *)

Record LoanRecord : Type := mkLoan {
  loan_id : option string;
  customer_id : option string;
  loan_amount : option Q;
  annual_income : option Q;
  monthly_payment : option Q;
  interest_rate : option Q;
  credit_score : option Q;
  employment_length : option Q;
  loan_status : option string;
  purpose : option string;
  application_date : option date_value;
  approval_date : option date_value;
  disbursement_date : option date_value;
  loan_term : option Q;
  loan_to_income : option Q;
  total_interest : option Q;
  loan_category : option string;
  credit_band : option string
}.

Definition DataFrame : Type := list LoanRecord.

(** Column assignment [df[col] = ...], one row at a time. *)
Definition set_credit_score (v : option Q) (r : LoanRecord) : LoanRecord :=
  mkLoan (loan_id r) (customer_id r) (loan_amount r) (annual_income r)
    (monthly_payment r) (interest_rate r) v (employment_length r)
    (loan_status r) (purpose r) (application_date r) (approval_date r)
    (disbursement_date r) (loan_term r) (loan_to_income r) (total_interest r)
    (loan_category r) (credit_band r).

Definition set_employment_length (v : option Q) (r : LoanRecord) : LoanRecord :=
  mkLoan (loan_id r) (customer_id r) (loan_amount r) (annual_income r)
    (monthly_payment r) (interest_rate r) (credit_score r) v
    (loan_status r) (purpose r) (application_date r) (approval_date r)
    (disbursement_date r) (loan_term r) (loan_to_income r) (total_interest r)
    (loan_category r) (credit_band r).

Definition set_loan_status (v : option string) (r : LoanRecord) : LoanRecord :=
  mkLoan (loan_id r) (customer_id r) (loan_amount r) (annual_income r)
    (monthly_payment r) (interest_rate r) (credit_score r) (employment_length r)
    v (purpose r) (application_date r) (approval_date r)
    (disbursement_date r) (loan_term r) (loan_to_income r) (total_interest r)
    (loan_category r) (credit_band r).

Definition set_purpose (v : option string) (r : LoanRecord) : LoanRecord :=
  mkLoan (loan_id r) (customer_id r) (loan_amount r) (annual_income r)
    (monthly_payment r) (interest_rate r) (credit_score r) (employment_length r)
    (loan_status r) v (application_date r) (approval_date r)
    (disbursement_date r) (loan_term r) (loan_to_income r) (total_interest r)
    (loan_category r) (credit_band r).

Definition set_application_date (v : option date_value) (r : LoanRecord)
  : LoanRecord :=
  mkLoan (loan_id r) (customer_id r) (loan_amount r) (annual_income r)
    (monthly_payment r) (interest_rate r) (credit_score r) (employment_length r)
    (loan_status r) (purpose r) v (approval_date r)
    (disbursement_date r) (loan_term r) (loan_to_income r) (total_interest r)
    (loan_category r) (credit_band r).

Definition set_approval_date (v : option date_value) (r : LoanRecord)
  : LoanRecord :=
  mkLoan (loan_id r) (customer_id r) (loan_amount r) (annual_income r)
    (monthly_payment r) (interest_rate r) (credit_score r) (employment_length r)
    (loan_status r) (purpose r) (application_date r) v
    (disbursement_date r) (loan_term r) (loan_to_income r) (total_interest r)
    (loan_category r) (credit_band r).

Definition set_disbursement_date (v : option date_value) (r : LoanRecord)
  : LoanRecord :=
  mkLoan (loan_id r) (customer_id r) (loan_amount r) (annual_income r)
    (monthly_payment r) (interest_rate r) (credit_score r) (employment_length r)
    (loan_status r) (purpose r) (application_date r) (approval_date r)
    v (loan_term r) (loan_to_income r) (total_interest r)
    (loan_category r) (credit_band r).

Definition set_loan_to_income (v : option Q) (r : LoanRecord) : LoanRecord :=
  mkLoan (loan_id r) (customer_id r) (loan_amount r) (annual_income r)
    (monthly_payment r) (interest_rate r) (credit_score r) (employment_length r)
    (loan_status r) (purpose r) (application_date r) (approval_date r)
    (disbursement_date r) (loan_term r) v (total_interest r)
    (loan_category r) (credit_band r).

Definition set_total_interest (v : option Q) (r : LoanRecord) : LoanRecord :=
  mkLoan (loan_id r) (customer_id r) (loan_amount r) (annual_income r)
    (monthly_payment r) (interest_rate r) (credit_score r) (employment_length r)
    (loan_status r) (purpose r) (application_date r) (approval_date r)
    (disbursement_date r) (loan_term r) (loan_to_income r) v
    (loan_category r) (credit_band r).

Definition set_loan_category (v : option string) (r : LoanRecord) : LoanRecord :=
  mkLoan (loan_id r) (customer_id r) (loan_amount r) (annual_income r)
    (monthly_payment r) (interest_rate r) (credit_score r) (employment_length r)
    (loan_status r) (purpose r) (application_date r) (approval_date r)
    (disbursement_date r) (loan_term r) (loan_to_income r) (total_interest r)
    v (credit_band r).

Definition set_credit_band (v : option string) (r : LoanRecord) : LoanRecord :=
  mkLoan (loan_id r) (customer_id r) (loan_amount r) (annual_income r)
    (monthly_payment r) (interest_rate r) (credit_score r) (employment_length r)
    (loan_status r) (purpose r) (application_date r) (approval_date r)
    (disbursement_date r) (loan_term r) (loan_to_income r) (total_interest r)
    (loan_category r) v.

(** A stage that removes rows returns a subsequence of its input: the
    rows it keeps stay in their order. *)
Inductive subsequence {A : Type} : list A -> list A -> Prop :=
| subseq_nil : subsequence [] []
| subseq_keep x l l' : subsequence l l' -> subsequence (x :: l) (x :: l')
| subseq_drop x l l' : subsequence l l' -> subsequence l (x :: l').

(** ** [remove_duplicates] *)

(** The [subset] of [drop_duplicates]. *)
Definition dedup_key : Type :=
  (option string * option Q * option date_value)%type.

Definition key_of (r : LoanRecord) : dedup_key :=
  (customer_id r, loan_amount r, application_date r).

(** Cell equality as [duplicated] hashes it: NaN matches NaN. *)
Definition cell_eqb {A : Type} (eqb : A -> A -> bool) (a b : option A) : bool :=
  match a, b with
  | Some x, Some y => eqb x y
  | None, None => true
  | _, _ => false
  end.

Definition key_eqb (k k' : dedup_key) : bool :=
  let '(c, a, d) := k in
  let '(c', a', d') := k' in
  cell_eqb String.eqb c c' && cell_eqb Qeq_bool a a'
  && cell_eqb date_value_eqb d d'.

Definition same_key (r r' : LoanRecord) : bool :=
  key_eqb (key_of r) (key_of r').

(** [DataFrame.duplicated(subset=..., keep='first')]: a row is marked
    when its key was met in an earlier row. *)
Fixpoint duplicated_from (seen : list dedup_key) (df : DataFrame) : list bool :=
  match df with
  | [] => []
  | r :: df' =>
      existsb (key_eqb (key_of r)) seen
      :: duplicated_from (key_of r :: seen) df'
  end.

Definition duplicated (df : DataFrame) : list bool := duplicated_from [] df.

(** Indexing by a boolean mask, [df[mask]]. *)
Fixpoint select (df : DataFrame) (mask : list bool) : DataFrame :=
  match df, mask with
  | r :: df', b :: mask' => if b then r :: select df' mask' else select df' mask'
  | _, _ => []
  end.

(** [df[~df.duplicated(...)]], from a given set of keys already met. *)
Definition keep_new (seen : list dedup_key) (df : DataFrame) : DataFrame :=
  select df (map negb (duplicated_from seen df)).

Definition drop_duplicates (df : DataFrame) : DataFrame := keep_new [] df.

(** No two rows of the table have matching keys. *)
Definition distinct_keys (df : DataFrame) : Prop :=
  ForallOrdPairs (fun r r' => same_key r r' = false) df.

(** Returns the table and the printed count [removed]. *)
Definition remove_duplicates (df : DataFrame) : DataFrame * nat :=
  let initial_count := List.length df in
  let df := drop_duplicates df in
  (df, (initial_count - List.length df)%nat).

(** ** [handle_missing_values] *)

(** [df.dropna(subset=critical_fields)] *)
Definition has_critical_fields (r : LoanRecord) : bool :=
  notnull (loan_id r) && notnull (customer_id r)
  && notnull (loan_amount r) && notnull (loan_status r).

(** [df['credit_score'].fillna(v, inplace=True)] writes through the
    column of [df] (pandas without copy-on-write). *)
Definition fill_credit_score (v : option Q) (df : DataFrame) : DataFrame :=
  map (fun r => set_credit_score (fillna v (credit_score r)) r) df.

Definition fill_employment_length (v : option Q) (df : DataFrame) : DataFrame :=
  map (fun r => set_employment_length (fillna v (employment_length r)) r) df.

(** Returns the table and the printed count of rows dropped for a
    missing critical field. *)
Definition handle_missing_values (df : DataFrame) : DataFrame * nat :=
  let initial_count := List.length df in
  let df := filter has_critical_fields df in
  let removed := (initial_count - List.length df)%nat in
  let df :=
    if existsb (fun r => isnull (credit_score r)) df then
      let median_score := median (map credit_score df) in
      fill_credit_score median_score df
    else df in
  let df :=
    if existsb (fun r => isnull (employment_length r)) df then
      fill_employment_length (Some 0) df
    else df in
  (df, removed).

(** The two fills seen on one row. *)
Definition fill_row (median_score : option Q) (r : LoanRecord) : LoanRecord :=
  let r := set_credit_score (fillna median_score (credit_score r)) r in
  set_employment_length (fillna (Some 0) (employment_length r)) r.

(** ** [validate_data_ranges] *)

Definition valid_loan_amount (r : LoanRecord) : bool :=
  cell_gt (loan_amount r) 0.

Definition valid_interest_rate (r : LoanRecord) : bool :=
  cell_ge (interest_rate r) 0 && cell_le (interest_rate r) 50.

Definition valid_credit_score (r : LoanRecord) : bool :=
  cell_ge (credit_score r) 300 && cell_le (credit_score r) 850.

Definition valid_annual_income (r : LoanRecord) : bool :=
  cell_gt (annual_income r) 0.

(** Four successive mask selections; returns the table and the printed
    count [removed]. *)
Definition validate_data_ranges (df : DataFrame) : DataFrame * nat :=
  let initial_count := List.length df in
  let df := filter valid_loan_amount df in
  let df := filter valid_interest_rate df in
  let df := filter valid_credit_score df in
  let df := filter valid_annual_income df in
  (df, (initial_count - List.length df)%nat).

(** The conjunction of the four masks. *)
Definition in_range (r : LoanRecord) : bool :=
  valid_loan_amount r && valid_interest_rate r
  && valid_credit_score r && valid_annual_income r.

(** The four range conditions as propositions on the cells. *)
Definition satisfies_ranges (r : LoanRecord) : Prop :=
  (exists a, loan_amount r = Some a /\ 0 < a)
  /\ (exists i, interest_rate r = Some i /\ 0 <= i /\ i <= 50)
  /\ (exists c, credit_score r = Some c /\ 300 <= c /\ c <= 850)
  /\ (exists n, annual_income r = Some n /\ 0 < n).

(** None of the four tested cells is absent. *)
Definition ranged_cells_present (r : LoanRecord) : Prop :=
  loan_amount r <> None /\ interest_rate r <> None
  /\ credit_score r <> None /\ annual_income r <> None.

(** ** [add_calculated_fields] *)

Definition add_loan_to_income (r : LoanRecord) : LoanRecord :=
  set_loan_to_income
    (cell_round 4 (cell_div (loan_amount r) (annual_income r))) r.

Definition add_total_interest (r : LoanRecord) : LoanRecord :=
  set_total_interest
    (cell_round 2
       (cell_sub (cell_mul (monthly_payment r) (loan_term r)) (loan_amount r)))
    r.

Definition add_loan_category (r : LoanRecord) : LoanRecord :=
  set_loan_category
    (cut (loan_amount r) loan_category_bins loan_category_labels) r.

Definition add_credit_band (r : LoanRecord) : LoanRecord :=
  set_credit_band (cut (credit_score r) credit_band_bins credit_band_labels) r.

Definition add_calculated_fields (df : DataFrame) : DataFrame :=
  let df := map add_loan_to_income df in
  let df := map add_total_interest df in
  let df := map add_loan_category df in
  let df := map add_credit_band df in
  df.

(** The four assignments seen on one row. *)
Definition enrich_row (r : LoanRecord) : LoanRecord :=
  add_credit_band (add_loan_category (add_total_interest (add_loan_to_income r))).

(** ** [standardize_formats] and the cleaning steps of [main] *)

Definition has_status (r : LoanRecord) : bool := notnull (loan_status r).

(** The dtype of a text column.  [read_csv] makes a column that holds at
    least one text, or that has no row at all, an [object] column, and a
    column whose cells are all empty a [float64] column of NaN; the
    dtype stays with the column when rows are removed.  The [.str]
    accessor works on an [object] column only. *)
Inductive dtype : Type :=
| ObjectDtype
| Float64Dtype.

Record TextDtypes : Type := mkTextDtypes {
  loan_status_dtype : dtype;
  purpose_dtype : dtype
}.

Definition text_dtype (col : list (option string)) : dtype :=
  match col with
  | [] => ObjectDtype
  | _ => if existsb notnull col then ObjectDtype else Float64Dtype
  end.

(** The dtypes of the two text columns of the table that [load_data]
    returns. *)
Definition read_csv_dtypes (df : DataFrame) : TextDtypes :=
  mkTextDtypes (text_dtype (map loan_status df)) (text_dtype (map purpose df)).

(** Both text columns are [object] columns. *)
Definition text_columns : TextDtypes := mkTextDtypes ObjectDtype ObjectDtype.

Definition is_object (d : dtype) : bool :=
  match d with ObjectDtype => true | Float64Dtype => false end.

Definition str_accessors (dtypes : TextDtypes) : bool :=
  is_object (loan_status_dtype dtypes) && is_object (purpose_dtype dtypes).

(** The texts of a date column, in row order. *)
Fixpoint column_texts (col : list (option date_value)) : list string :=
  match col with
  | [] => []
  | Some (RawDate text) :: col' => text :: column_texts col'
  | _ :: col' => column_texts col'
  end.

(** The texts of the three date columns of a table. *)
Record DateTexts : Type := mkDateTexts {
  application_texts : list string;
  approval_texts : list string;
  disbursement_texts : list string
}.

Definition date_texts (df : DataFrame) : DateTexts :=
  mkDateTexts (column_texts (map application_date df))
    (column_texts (map approval_date df))
    (column_texts (map disbursement_date df)).

(** Column assignment [df[col] = values]. *)
Fixpoint assign {A : Type} (set : A -> LoanRecord -> LoanRecord)
  (values : list A) (df : DataFrame) : DataFrame :=
  match values, df with
  | v :: values', r :: df' => set v r :: assign set values' df'
  | _, _ => []
  end.

Section Pipeline.

(** [pd.to_datetime(column, errors='coerce')] on one text of a column:
    the timestamp, or nothing (NaT) when the text does not parse.  What
    a text parses to may depend on the column it stands in (pandas
    infers one format for the column from its first text), so the
    parser is given the texts of the column and the text.  The parser
    belongs to pandas; the stages are stated over any such function. *)
Variable parse_datetime : list string -> string -> option Z.

(** The dtypes of the text columns of the table that is cleaned. *)
Variable dtypes : TextDtypes.

(** On a cell of a column with the given texts: NaN becomes NaT, a text
    is parsed, a timestamp stays. *)
Definition to_datetime_cell (texts : list string) (c : option date_value)
  : option date_value :=
  match c with
  | None => None
  | Some (RawDate text) => option_map Timestamp (parse_datetime texts text)
  | Some (Timestamp t) => Some (Timestamp t)
  end.

(** [pd.to_datetime(df[col], errors='coerce')] *)
Definition to_datetime (col : list (option date_value))
  : list (option date_value) :=
  map (to_datetime_cell (column_texts col)) col.

(** [df['loan_status'].str.lower().map(lambda x: ...)].  [.str.lower()]
    leaves NaN as NaN and [map] hands it to the lambda, where
    [x.title()] raises AttributeError: the result is [None] as soon as
    one status cell is absent. *)
Fixpoint map_loan_status (df : DataFrame) : option DataFrame :=
  match df with
  | [] => Some []
  | r :: df' =>
      match loan_status r, map_loan_status df' with
      | Some s, Some out =>
          Some (set_loan_status (Some (map_status (Text.lower s))) r :: out)
      | _, _ => None
      end
  end.

(** [None] is the run aborted by an AttributeError: from the [.str]
    accessor of a [float64] column, or from [x.title()] on NaN. *)
Definition standardize_formats (df : DataFrame) : option DataFrame :=
  match loan_status_dtype dtypes with
  | Float64Dtype => None
  | ObjectDtype =>
      match map_loan_status df with
      | None => None
      | Some df =>
          let df :=
            map (fun r =>
                   set_loan_status (option_map Text.strip (loan_status r)) r)
                df in
          match purpose_dtype dtypes with
          | Float64Dtype => None
          | ObjectDtype =>
              let df :=
                map (fun r => set_purpose (option_map Text.strip (purpose r)) r)
                    df in
              let df :=
                assign set_application_date
                  (to_datetime (map application_date df)) df in
              let df :=
                assign set_approval_date
                  (to_datetime (map approval_date df)) df in
              let df :=
                assign set_disbursement_date
                  (to_datetime (map disbursement_date df)) df in
              Some df
          end
      end
  end.

(** All the assignments of [standardize_formats] seen on one row of a
    table whose date columns hold the given texts. *)
Definition standardize_row (texts : DateTexts) (r : LoanRecord) : LoanRecord :=
  let r := set_loan_status (option_map standardize_status (loan_status r)) r in
  let r := set_purpose (option_map Text.strip (purpose r)) r in
  let r :=
    set_application_date
      (to_datetime_cell (application_texts texts) (application_date r)) r in
  let r :=
    set_approval_date
      (to_datetime_cell (approval_texts texts) (approval_date r)) r in
  set_disbursement_date
    (to_datetime_cell (disbursement_texts texts) (disbursement_date r)) r.

(** The five cleaning calls of [main], from the loaded table to the
    table handed to [save_cleaned_data]. *)
Definition clean (df : DataFrame) : option DataFrame :=
  let df := fst (remove_duplicates df) in
  let df := fst (handle_missing_values df) in
  match standardize_formats df with
  | None => None
  | Some df =>
      let df := fst (validate_data_ranges df) in
      Some (add_calculated_fields df)
  end.

End Pipeline.

(** A date cell that is not a text any more. *)
Definition parsed_cell (c : option date_value) : Prop :=
  forall text, c <> Some (RawDate text).

(** What every row of a cleaned table satisfies: the critical cells and
    the employment length are present, the ranges hold, the purpose is
    trimmed, the dates are timestamps or absent, and the derived cells
    are those computed from the row. *)
Definition cleaned_row (r : LoanRecord) : Prop :=
  has_critical_fields r = true
  /\ in_range r = true
  /\ employment_length r <> None
  /\ option_map Text.strip (purpose r) = purpose r
  /\ parsed_cell (application_date r)
  /\ parsed_cell (approval_date r)
  /\ parsed_cell (disbursement_date r)
  /\ enrich_row r = r.

(** The status cell is left as it is by the status step. *)
Definition status_settled (r : LoanRecord) : Prop :=
  option_map standardize_status (loan_status r) = loan_status r.

(** ** A date parser to run the stages on concrete tables

    The ISO fragment of [pd.to_datetime]: a text [YYYY-MM-DD] naming a
    day of the calendar parses to that day, numbered [YYYYMMDD]; any
    other text is taken as unparseable.  It is used on the sample tables
    only, whose date texts are ISO dates or no dates at all: in such a
    column the format pandas infers is the ISO one or none, and a text
    parses exactly when it is an ISO date. *)

Definition digit_of (c : ascii) : option Z :=
  let n := nat_of_ascii c in
  if (48 <=? n)%nat && (n <=? 57)%nat then Some (Z.of_nat (n - 48)) else None.

Fixpoint number_of (acc : Z) (cs : list ascii) : option Z :=
  match cs with
  | [] => Some acc
  | c :: cs' =>
      match digit_of c with
      | Some d => number_of (10 * acc + d) cs'
      | None => None
      end
  end.

Definition is_leap (y : Z) : bool :=
  ((y mod 4 =? 0) && negb (y mod 100 =? 0) || (y mod 400 =? 0))%Z.

Definition days_in_month (y m : Z) : Z :=
  if (m =? 2)%Z then (if is_leap y then 29 else 28)%Z
  else if ((m =? 4) || (m =? 6) || (m =? 9) || (m =? 11))%Z then 30%Z
  else 31%Z.

Definition parse_iso_date (text : string) : option Z :=
  match list_ascii_of_string text with
  | [y1; y2; y3; y4; "-"%char; m1; m2; "-"%char; d1; d2] =>
      match number_of 0 [y1; y2; y3; y4], number_of 0 [m1; m2],
            number_of 0 [d1; d2] with
      | Some y, Some m, Some d =>
          if ((1 <=? m) && (m <=? 12) && (1 <=? d) && (d <=? days_in_month y m))%Z
          then Some (y * 10000 + m * 100 + d)%Z
          else None
      | _, _, _ => None
      end
  | _ => None
  end.

Definition parse_iso_column (texts : list string) (text : string) : option Z :=
  parse_iso_date text.

(** ** Sample tables *)

(** A row as the loader delivers it: text dates, no derived column. *)
Definition raw_row (id customer : string) (amount income payment rate term : Q)
  (score : option Q) (status : option string) (applied : option string)
  : LoanRecord :=
  mkLoan (Some id) (Some customer) (Some amount) (Some income) (Some payment)
    (Some rate) score (Some 5) status (Some " car ")
    (option_map RawDate applied) (Some (RawDate "2023-02-01")) None (Some term)
    None None None None.

Definition status_sample : DataFrame :=
  [ raw_row "L1" "C1" 12000 60000 500 7 36 (Some 700) (Some "  FULLY PAID ")
      (Some "2023-01-05");
    raw_row "L2" "C2" 8000 40000 300 9 24 (Some 640) (Some "Unknown Status")
      (Some "2023-01-06");
    raw_row "L3" "C3" 9000 45000 400 9 24 (Some 650) (Some "in-progress")
      (Some "pending") ].

Definition range_sample : DataFrame :=
  [ raw_row "L1" "C1" 12000 60000 500 7 36 (Some 700) (Some "current")
      (Some "2023-01-05");
    raw_row "L2" "C2" 8000 40000 300 75 24 None (Some "current")
      (Some "2023-01-06");
    raw_row "L3" "C3" 9000 45000 400 9 24 None (Some "current")
      (Some "2023-01-07") ].

Definition no_score_sample : DataFrame :=
  [ raw_row "L1" "C1" 12000 60000 500 7 36 None (Some "current")
      (Some "2023-01-05");
    raw_row "L2" "C2" 8000 40000 300 9 24 None (Some "late (16-30 days)")
      (Some "2023-01-06") ].

Definition absent_key_sample : DataFrame :=
  [ raw_row "L1" "C1" 12000 60000 500 7 36 (Some 700) (Some "current") None;
    raw_row "L2" "C2" 8000 40000 300 9 24 (Some 640) (Some "current")
      (Some "2023-01-06");
    raw_row "L3" "C1" 12000 50000 400 8 36 (Some 650) (Some "current") None ].

Definition without_loan_id (r : LoanRecord) : LoanRecord :=
  mkLoan None (customer_id r) (loan_amount r) (annual_income r)
    (monthly_payment r) (interest_rate r) (credit_score r) (employment_length r)
    (loan_status r) (purpose r) (application_date r) (approval_date r)
    (disbursement_date r) (loan_term r) (loan_to_income r) (total_interest r)
    (loan_category r) (credit_band r).

Definition median_sample : DataFrame :=
  [ raw_row "L1" "C1" 12000 60000 500 7 36 (Some 700) (Some "current")
      (Some "2023-01-05");
    set_employment_length None
      (raw_row "L2" "C2" 8000 40000 300 9 24 None (Some "current")
         (Some "2023-01-06"));
    without_loan_id
      (raw_row "L3" "C3" 9000 45000 400 9 24 (Some 800) (Some "current")
         (Some "2023-01-07"));
    raw_row "L4" "C4" 9000 45000 400 9 24 (Some 640) (Some "current")
      (Some "2023-01-08") ].

(** Two applications of one customer for one amount whose dates differ
    as texts and do not parse. *)
Definition unparsed_dates_sample : DataFrame :=
  [ raw_row "L1" "C1" 12000 60000 500 7 36 (Some 700) (Some "current")
      (Some "pending");
    raw_row "L2" "C1" 12000 60000 500 7 36 (Some 700) (Some "current")
      (Some "unknown") ].

(** A status of the mapping with a space in front. *)
Definition padded_status_sample : DataFrame :=
  [ raw_row "L1" "C1" 12000 60000 500 7 36 (Some 700)
      (Some " late (31-120 days)") (Some "2023-01-05") ].

(** The run seen on one row, and the rows it keeps. *)
Definition clean_row (parse_datetime : list string -> string -> option Z)
  (texts : DateTexts) (median_score : option Q) (r : LoanRecord) : LoanRecord :=
  enrich_row (standardize_row parse_datetime texts (fill_row median_score r)).

Definition survives (median_score : option Q) (r : LoanRecord) : bool :=
  has_critical_fields r && in_range (fill_row median_score r).

(** The table after the first two cleaning calls of [main]: the one
    whose date columns [pd.to_datetime] is applied to. *)
Definition filled_table (df : DataFrame) : DataFrame :=
  fst (handle_missing_values (fst (remove_duplicates df))).

(** Two rows that [remove_duplicates] tells apart by their application
    dates only, and whose dates the date step turns into one value. *)
Definition merged_by_parsing
  (parsed : option date_value -> option date_value) (r r' : LoanRecord) : Prop :=
  cell_eqb String.eqb (customer_id r) (customer_id r') = true
  /\ cell_eqb Qeq_bool (loan_amount r) (loan_amount r') = true
  /\ application_date r <> application_date r'
  /\ parsed (application_date r) = parsed (application_date r').

(** One customer with three applications for one amount, two of them on
    one day, and two other customers whose dates are no dates. *)
Definition repeated_customer_sample : DataFrame :=
  [ raw_row "L1" "C1" 12000 60000 500 7 36 (Some 700) (Some "current")
      (Some "2023-01-05");
    raw_row "L2" "C1" 12000 60000 500 7 36 (Some 700) (Some "current")
      (Some "2023-01-05");
    raw_row "L3" "C1" 12000 60000 500 7 36 (Some 700) (Some "current")
      (Some "2023-02-07");
    raw_row "L4" "C2" 8000 40000 300 9 24 (Some 640) (Some "current")
      (Some "pending");
    raw_row "L5" "C3" 8000 40000 300 9 24 (Some 640) (Some "current")
      (Some "unknown") ].


(** A file with a repeated row, a row without loan id and a row with an
    interest rate out of range. *)
Definition accounting_sample : DataFrame :=
  [ raw_row "L1" "C1" 12000 60000 500 7 36 (Some 700) (Some "current")
      (Some "2023-01-05");
    raw_row "L2" "C1" 12000 60000 500 7 36 (Some 700) (Some "current")
      (Some "2023-01-05");
    without_loan_id
      (raw_row "L3" "C3" 9000 45000 400 9 24 (Some 800) (Some "current")
         (Some "2023-01-07"));
    raw_row "L4" "C4" 9000 45000 400 75 24 (Some 640) (Some "current")
      (Some "2023-01-08");
    raw_row "L5" "C5" 8000 40000 300 9 24 (Some 640) (Some "current")
      (Some "pending") ].

(** A table handed to [standardize_formats] with a row that has no loan
    status, in a text column. *)
Definition statusless_row_sample : DataFrame :=
  [ raw_row "L1" "C1" 12000 60000 500 7 36 (Some 700) (Some "current")
      (Some "2023-01-05");
    raw_row "L2" "C2" 8000 40000 300 9 24 (Some 640) None
      (Some "2023-01-06") ].


(** ** The rows of the table handed to the writer *)

Definition writer_row (r : LoanRecord) : Prop :=
  loan_id r <> None /\ customer_id r <> None
  /\ loan_amount r <> None /\ loan_status r <> None
  /\ employment_length r <> None
  /\ (forall s, loan_status r = Some s -> Text.strip s = s)
  /\ (forall s, purpose r = Some s -> Text.strip s = s)
  /\ (forall text, application_date r <> Some (RawDate text))
  /\ (forall text, approval_date r <> Some (RawDate text))
  /\ (forall text, disbursement_date r <> Some (RawDate text))
  /\ loan_to_income r <> None
  /\ satisfies_ranges r.

(** The values of a column whose absent cells are filled with [m]. *)
Definition filled_values (m : Q) (col : list (option Q)) : list Q :=
  map (fun c => match c with Some v => v | None => m end) col.

(** ** [check_data_quality] *)

(** [Series.isnull().sum()] *)
Definition isnull_sum {A : Type} (col : list (option A)) : nat :=
  List.length (filter isnull col).

(** Equality of two rows on the columns of the loaded table, as
    [DataFrame.duplicated()] without [subset] compares them. *)
Definition row_eqb (r r' : LoanRecord) : bool :=
  cell_eqb String.eqb (loan_id r) (loan_id r')
  && cell_eqb String.eqb (customer_id r) (customer_id r')
  && cell_eqb Qeq_bool (loan_amount r) (loan_amount r')
  && cell_eqb Qeq_bool (annual_income r) (annual_income r')
  && cell_eqb Qeq_bool (monthly_payment r) (monthly_payment r')
  && cell_eqb Qeq_bool (interest_rate r) (interest_rate r')
  && cell_eqb Qeq_bool (credit_score r) (credit_score r')
  && cell_eqb Qeq_bool (employment_length r) (employment_length r')
  && cell_eqb String.eqb (loan_status r) (loan_status r')
  && cell_eqb String.eqb (purpose r) (purpose r')
  && cell_eqb date_value_eqb (application_date r) (application_date r')
  && cell_eqb date_value_eqb (approval_date r) (approval_date r')
  && cell_eqb date_value_eqb (disbursement_date r) (disbursement_date r')
  && cell_eqb Qeq_bool (loan_term r) (loan_term r').

(** [df.duplicated()]: a row is marked when an earlier row equals it. *)
Fixpoint duplicated_rows_from (seen : list LoanRecord) (df : DataFrame)
  : list bool :=
  match df with
  | [] => []
  | r :: df' => existsb (row_eqb r) seen :: duplicated_rows_from (r :: seen) df'
  end.

(** [mask.sum()] *)
Definition mask_sum (mask : list bool) : nat :=
  List.length (filter (fun b => b) mask).

(** What the report prints, besides the dtypes: the number of rows and
    of columns, the missing cells of each column, and the number of rows
    that repeat an earlier row.  [main] calls it on the loaded table,
    whose columns are taken to be the fourteen columns the script
    names. *)
Record QualityReport : Type := mkQualityReport {
  quality_records : nat;
  quality_columns : nat;
  quality_missing : list (string * nat);
  quality_duplicates : nat
}.

Definition missing_values (df : DataFrame) : list (string * nat) :=
  [ ("loan_id", isnull_sum (map loan_id df));
    ("customer_id", isnull_sum (map customer_id df));
    ("loan_amount", isnull_sum (map loan_amount df));
    ("annual_income", isnull_sum (map annual_income df));
    ("monthly_payment", isnull_sum (map monthly_payment df));
    ("interest_rate", isnull_sum (map interest_rate df));
    ("credit_score", isnull_sum (map credit_score df));
    ("employment_length", isnull_sum (map employment_length df));
    ("loan_status", isnull_sum (map loan_status df));
    ("purpose", isnull_sum (map purpose df));
    ("application_date", isnull_sum (map application_date df));
    ("approval_date", isnull_sum (map approval_date df));
    ("disbursement_date", isnull_sum (map disbursement_date df));
    ("loan_term", isnull_sum (map loan_term df)) ].

Definition check_data_quality (df : DataFrame) : QualityReport :=
  mkQualityReport (List.length df) (List.length (missing_values df))
    (missing_values df) (mask_sum (duplicated_rows_from [] df)).

(** [d[name]] on the printed series, 0 for a name that is not a column. *)
Fixpoint missing_of (name : string) (counts : list (string * nat)) : nat :=
  match counts with
  | [] => O
  | (k, n) :: counts' => if String.eqb k name then n else missing_of name counts'
  end.

Definition half_duplicate_sample : DataFrame :=
  [ raw_row "L1" "C1" 12000 60000 500 7 36 (Some 700) (Some "current")
      (Some "2023-01-05");
    raw_row "L1" "C1" 12000 60000 500 7 36 (Some 700) (Some "current")
      (Some "2023-01-05");
    raw_row "L9" "C1" 12000 60000 450 8 48 None (Some "current")
      (Some "2023-01-05") ].

(** ** [generate_summary_statistics] *)

(** The cells of a column that are not NaN. *)
Fixpoint present {A : Type} (col : list (option A)) : list A :=
  match col with
  | [] => []
  | Some v :: col' => v :: present col'
  | None :: col' => present col'
  end.

Definition sum_values (l : list Q) : Q := fold_right Qplus 0 l.

(** [Series.mean()]: NaN cells are skipped; NaN when nothing is left. *)
Definition mean (col : list (option Q)) : option Q :=
  match dropna_values col with
  | [] => None
  | vs => Some (sum_values vs / inject_Z (Z.of_nat (List.length vs)))
  end.

(** The distinct values of a list, in order of first appearance. *)
Fixpoint unique (l : list string) : list string :=
  match l with
  | [] => []
  | x :: l' => x :: filter (fun y => negb (String.eqb x y)) (unique l')
  end.

(** [Series.nunique()] *)
Definition nunique (col : list (option string)) : nat :=
  List.length (unique (present col)).

Definition occurrences (v : string) (l : list string) : nat :=
  List.length (filter (String.eqb v) l).

(** [Series.value_counts()]: one entry for each distinct value that is
    not NaN, with the number of its cells, by decreasing count.  Entries
    with equal counts are left here in order of first appearance. *)
Fixpoint insert_by_count (e : string * nat) (l : list (string * nat))
  : list (string * nat) :=
  match l with
  | [] => [e]
  | e' :: l' =>
      if (snd e' <=? snd e)%nat then e :: l else e' :: insert_by_count e l'
  end.

Definition value_counts (col : list (option string)) : list (string * nat) :=
  let vs := present col in
  fold_right insert_by_count []
    (map (fun v => (v, occurrences v vs)) (unique vs)).

(** The timestamps of a date column that went through [pd.to_datetime];
    NaT is skipped by [min] and [max]. *)
Fixpoint timestamps (col : list (option date_value)) : list Z :=
  match col with
  | [] => []
  | Some (Timestamp t) :: col' => t :: timestamps col'
  | _ :: col' => timestamps col'
  end.

Definition date_min (col : list (option date_value)) : option Z :=
  match timestamps col with
  | [] => None
  | t :: ts => Some (fold_left Z.min ts t)
  end.

Definition date_max (col : list (option date_value)) : option Z :=
  match timestamps col with
  | [] => None
  | t :: ts => Some (fold_left Z.max ts t)
  end.

(** The values the summary prints, before they are formatted. *)
Record Summary : Type := mkSummary {
  summary_records : nat;
  summary_customers : nat;
  summary_first_date : option Z;
  summary_last_date : option Z;
  summary_mean_amount : option Q;
  summary_median_amount : option Q;
  summary_mean_rate : option Q;
  summary_mean_score : option Q;
  summary_status : list (string * nat);
  summary_purpose : list (string * nat)
}.

Definition generate_summary_statistics (df : DataFrame) : Summary :=
  mkSummary
    (List.length df)
    (nunique (map customer_id df))
    (date_min (map application_date df))
    (date_max (map application_date df))
    (mean (map loan_amount df))
    (median (map loan_amount df))
    (mean (map interest_rate df))
    (mean (map credit_score df))
    (value_counts (map loan_status df))
    (value_counts (map purpose df)).

Definition total_count (counts : list (string * nat)) : nat :=
  fold_right (fun e n => (snd e + n)%nat) O counts.


(** The order of the entries of [value_counts]. *)
Definition by_decreasing_count (e e' : string * nat) : Prop :=
  (snd e' <= snd e)%nat.

(** * Properties *)

(** ** Text *)

Module TextFacts.
Import Text.

Ltac by_cases_on_char c :=
  destruct c as [[] [] [] [] [] [] [] []]; reflexivity.

Lemma is_cased_to_lower c : is_cased (to_lower c) = is_cased c.
Proof. by_cases_on_char c. Qed.

Lemma to_lower_idem c : to_lower (to_lower c) = to_lower c.
Proof. by_cases_on_char c. Qed.

Lemma to_upper_to_lower c : to_upper (to_lower c) = to_upper c.
Proof. by_cases_on_char c. Qed.

Lemma title_from_lower b s : title_from b (lower s) = title_from b s.
Proof.
  revert b; induction s as [|c s IH]; intro b; simpl.
  - reflexivity.
  - rewrite is_cased_to_lower, IH.
    destruct b; [rewrite to_lower_idem | rewrite to_upper_to_lower]; reflexivity.
Qed.

(** Title-casing the lower-cased text or the text itself is the same. *)
Lemma title_lower s : title (lower s) = title s.
Proof. apply title_from_lower. Qed.

(** [str.title], character by character: the character at index [i]
    is lower-cased when the one before it is a letter and upper-cased
    otherwise. *)
Lemma title_from_get b s i :
  String.get i (title_from b s) =
  match String.get i s with
  | None => None
  | Some c =>
      let after_letter :=
        match i with
        | O => b
        | S j => match String.get j s with
                 | Some p => is_cased p
                 | None => false
                 end
        end in
      Some (if after_letter then to_lower c else to_upper c)
  end.
Proof.
  revert b i; induction s as [|c s IH]; intros b i; simpl.
  - destruct i; reflexivity.
  - destruct i as [|i]; simpl; [reflexivity|].
    rewrite IH. destruct (String.get i s) eqn:E; [|reflexivity].
    destruct i as [|i]; simpl; reflexivity.
Qed.

Lemma lstrip_starts_clean s : starts_clean (lstrip s) = true.
Proof.
  induction s as [|c s IH]; simpl; [reflexivity|].
  destruct (is_space c) eqn:E; [exact IH|]. simpl. now rewrite E.
Qed.

Lemma lstrip_clean s : starts_clean s = true -> lstrip s = s.
Proof.
  destruct s as [|c s]; simpl; [reflexivity|].
  now destruct (is_space c).
Qed.

Lemma rstrip_starts_clean s :
  starts_clean s = true -> starts_clean (rstrip s) = true.
Proof.
  destruct s as [|c s]; simpl; [reflexivity|].
  intro H. destruct (rstrip s); simpl.
  - destruct (is_space c) eqn:E; [discriminate | simpl].
    now rewrite E.
  - exact H.
Qed.

Lemma rstrip_idem s : rstrip (rstrip s) = rstrip s.
Proof.
  induction s as [|c s IH]; simpl; [reflexivity|].
  destruct (rstrip s) as [|c' r] eqn:E.
  - destruct (is_space c) eqn:Ec; simpl; [reflexivity | now rewrite Ec].
  - change (rstrip (String c (String c' r))) with
      (match rstrip (String c' r) with
       | EmptyString => if is_space c then EmptyString else String c EmptyString
       | r0 => String c r0
       end).
    now rewrite IH.
Qed.

(** [strip] is idempotent. *)
Lemma strip_idem s : strip (strip s) = strip s.
Proof.
  unfold strip.
  rewrite (lstrip_clean (rstrip (lstrip s))).
  - apply rstrip_idem.
  - apply rstrip_starts_clean, lstrip_starts_clean.
Qed.

Lemma is_space_to_lower c : is_space (to_lower c) = is_space c.
Proof. by_cases_on_char c. Qed.

Lemma is_space_to_upper c : is_space (to_upper c) = is_space c.
Proof. by_cases_on_char c. Qed.

Lemma is_cased_to_upper c : is_cased (to_upper c) = is_cased c.
Proof. by_cases_on_char c. Qed.

Lemma to_upper_idem c : to_upper (to_upper c) = to_upper c.
Proof. by_cases_on_char c. Qed.

Lemma space_uncased c : is_space c = true -> is_cased c = false.
Proof.
  destruct c as [[] [] [] [] [] [] [] []]; simpl; intro H;
    try reflexivity; discriminate H.
Qed.

Lemma title_from_idem b s : title_from b (title_from b s) = title_from b s.
Proof.
  revert b; induction s as [|c s IH]; intro b; simpl; [reflexivity|].
  destruct b.
  - now rewrite to_lower_idem, is_cased_to_lower, IH.
  - now rewrite to_upper_idem, is_cased_to_upper, IH.
Qed.

Lemma title_lstrip s : title (lstrip s) = lstrip (title s).
Proof.
  unfold title. induction s as [|c s IH]; simpl; [reflexivity|].
  rewrite is_space_to_upper.
  destruct (is_space c) eqn:E; [|reflexivity].
  now rewrite (space_uncased c E).
Qed.

Lemma title_from_rstrip b s : title_from b (rstrip s) = rstrip (title_from b s).
Proof.
  revert b; induction s as [|c s IH]; intro b; simpl; [reflexivity|].
  rewrite <- IH.
  destruct (rstrip s) as [|c' r] eqn:E; simpl; [|reflexivity].
  destruct b; rewrite ?is_space_to_lower, ?is_space_to_upper;
    destruct (is_space c); reflexivity.
Qed.

(** Trimming and title-casing commute: whitespace has no case. *)
Lemma title_strip s : title (strip s) = strip (title s).
Proof. unfold strip. rewrite <- title_lstrip. apply title_from_rstrip. Qed.

End TextFacts.

(** ** Loan status *)

Lemma dict_get_mem d x a :
  dict_mem d x = true -> forall b, dict_get d x a = dict_get d x b.
Proof.
  induction d as [|[k v] d IH]; simpl; [discriminate|].
  destruct (String.eqb k x); simpl; auto.
Qed.

Lemma dict_get_not_mem d x a : dict_mem d x = false -> dict_get d x a = a.
Proof.
  induction d as [|[k v] d IH]; simpl; [reflexivity|].
  destruct (String.eqb k x); simpl; [discriminate | exact IH].
Qed.

(** The status step as a lookup with the [str.title] of the raw text as
    the fallback. *)
Lemma standardize_status_lookup raw :
  standardize_status raw =
  Text.strip
    (if dict_mem status_mapping (Text.lower raw)
     then dict_get status_mapping (Text.lower raw) EmptyString
     else Text.title raw).
Proof.
  unfold standardize_status, map_status.
  destruct (dict_mem status_mapping (Text.lower raw)) eqn:E.
  - f_equal. now apply dict_get_mem.
  - f_equal. rewrite dict_get_not_mem by exact E.
    apply TextFacts.title_lower.
Qed.

Lemma dict_mem_in d x : dict_mem d x = true -> In x (map fst d).
Proof.
  unfold dict_mem. rewrite existsb_exists. intros ([k v] & Hin & Hk).
  apply String.eqb_eq in Hk. simpl in Hk. subst x.
  now apply (in_map fst) in Hin.
Qed.

(** Standardizing a standardized status changes it only when the first
    pass went through the title-case fallback and the second one finds a
    key: the raw text was a key with whitespace around it. *)
Lemma standardize_status_settled s :
  dict_mem status_mapping (Text.lower s) = true
  \/ dict_mem status_mapping (Text.lower (standardize_status s)) = false ->
  standardize_status (standardize_status s) = standardize_status s.
Proof.
  destruct (dict_mem status_mapping (Text.lower s)) eqn:Ekey.
  - intros _. apply dict_mem_in in Ekey.
    assert (Hs : standardize_status s = Text.strip (map_status (Text.lower s)))
      by reflexivity.
    rewrite Hs. simpl in Ekey.
    destruct Ekey as [<-|[<-|[<-|[<-|[<-|[]]]]]]; reflexivity.
  - intros [H|H]; [discriminate|].
    assert (Hs : standardize_status s = Text.strip (Text.title (Text.lower s))).
    { unfold standardize_status, map_status. now rewrite dict_get_not_mem. }
    unfold standardize_status at 1, map_status.
    rewrite dict_get_not_mem by exact H.
    rewrite TextFacts.title_lower, Hs, TextFacts.title_strip.
    unfold Text.title at 1.
    now rewrite TextFacts.title_from_idem, TextFacts.strip_idem.
Qed.

(** ** [standardize_formats], row by row *)

Section StandardizeFacts.

Variable parse_datetime : list string -> string -> option Z.

Lemma map_loan_status_some df :
  forallb has_status df = true ->
  map_loan_status df =
  Some (map (fun r =>
               set_loan_status
                 (option_map (fun s => map_status (Text.lower s)) (loan_status r)) r)
            df).
Proof.
  induction df as [|r df IH]; simpl; [reflexivity|].
  intro H. apply andb_true_iff in H. destruct H as [Hr Hdf].
  rewrite (IH Hdf). unfold has_status in Hr.
  destruct (loan_status r); [reflexivity | discriminate].
Qed.

Lemma map_loan_status_none df :
  forallb has_status df = false -> map_loan_status df = None.
Proof.
  induction df as [|r df IH]; simpl; [discriminate|].
  intro H. apply andb_false_iff in H. unfold has_status in H.
  destruct (loan_status r); [|reflexivity].
  destruct H as [H|H]; [discriminate|]. now rewrite (IH H).
Qed.

Lemma assign_map {A : Type} (set : A -> LoanRecord -> LoanRecord)
  (value : LoanRecord -> A) df :
  assign set (map value df) df = map (fun r => set (value r) r) df.
Proof. induction df as [|r df IH]; simpl; [reflexivity | now rewrite IH]. Qed.

Lemma to_datetime_assign
  (get : LoanRecord -> option date_value)
  (set : option date_value -> LoanRecord -> LoanRecord) df :
  assign set (to_datetime parse_datetime (map get df)) df
  = map (fun r =>
           set (to_datetime_cell parse_datetime (column_texts (map get df))
                  (get r)) r)
        df.
Proof. unfold to_datetime. rewrite map_map. apply assign_map. Qed.

Lemma map_unchanged {A : Type} (get : LoanRecord -> A)
  (h : LoanRecord -> LoanRecord) df :
  (forall r, get (h r) = get r) -> map get (map h df) = map get df.
Proof. intro H. rewrite map_map. now apply map_ext. Qed.

(** The stage returns exactly on the tables whose two text columns are
    [object] columns without an absent status, and then works row by
    row, every date parsed as a text of its column. *)
Lemma standardize_formats_rows dtypes df :
  standardize_formats parse_datetime dtypes df =
  if str_accessors dtypes && forallb has_status df
  then Some (map (standardize_row parse_datetime (date_texts df)) df)
  else None.
Proof.
  unfold standardize_formats, str_accessors.
  destruct (loan_status_dtype dtypes); [|reflexivity].
  destruct (forallb has_status df) eqn:E.
  2:{ rewrite (map_loan_status_none _ E). now rewrite andb_false_r. }
  rewrite (map_loan_status_some _ E).
  destruct (purpose_dtype dtypes); [|reflexivity].
  cbn [is_object andb]. f_equal. cbv zeta.
  rewrite !to_datetime_assign.
  rewrite !(map_unchanged application_date) by reflexivity.
  rewrite !(map_unchanged approval_date) by reflexivity.
  rewrite !(map_unchanged disbursement_date) by reflexivity.
  rewrite !map_map. apply map_ext.
  intros [? ? ? ? ? ? ? ? [s|] ? ? ? ? ? ? ? ? ?]; reflexivity.
Qed.

End StandardizeFacts.

(** ** The loan status rule *)

(** C3, as stated, fails: for a status outside the mapping the code
    applies [str.title] to the lower-cased text, which starts a new word
    after every character that is not a letter, not only after
    whitespace.  "in-progress" becomes "In-Progress", while upper-casing
    the first letter of each whitespace-separated word gives
    "In-progress", with or without lower-casing the other letters. *)
Lemma status_title_by_words_counterexample :
  standardize_status "in-progress" = "In-Progress"
  /\ standardize_status_by_words "in-progress" = "In-progress"
  /\ standardize_status_by_capitalized_words "in-progress" = "In-progress"
  /\ standardize_status "in-progress" <> standardize_status_by_words "in-progress"
  /\ standardize_status "in-progress"
     <> standardize_status_by_capitalized_words "in-progress".
Proof. repeat split; try reflexivity; discriminate. Qed.

(** C3, amended: every status cell is lower-cased and looked up in the
    five-entry mapping; when it is not a key, the result is the
    [str.title] of the text (every letter that follows a letter in lower
    case, every other letter in upper case; the same on the raw and on
    the lower-cased text); the result is trimmed afterwards.
    "  FULLY PAID " gives "Fully Paid" and "Unknown Status" stays. *)
Theorem standardize_formats_loan_status
  (parse_datetime : list string -> string -> option Z) (dtypes : TextDtypes)
  (df df' : DataFrame) :
  standardize_formats parse_datetime dtypes df = Some df' ->
  map loan_status df' =
  map (fun r =>
         option_map
           (fun raw =>
              Text.strip
                (if dict_mem status_mapping (Text.lower raw)
                 then dict_get status_mapping (Text.lower raw) EmptyString
                 else Text.title raw))
           (loan_status r))
      df
  /\ (forall raw i,
         String.get i (Text.title raw) =
         match String.get i raw with
         | None => None
         | Some c =>
             let after_letter :=
               match i with
               | O => false
               | S j => match String.get j raw with
                        | Some p => Text.is_cased p
                        | None => false
                        end
               end in
             Some (if after_letter then Text.to_lower c else Text.to_upper c)
         end)
  /\ standardize_status "  FULLY PAID " = "Fully Paid"
  /\ standardize_status "Unknown Status" = "Unknown Status".
Proof.
  intro H.
  split; [|split; [intros; apply TextFacts.title_from_get | split; reflexivity]].
  rewrite standardize_formats_rows in H.
  destruct (str_accessors dtypes && forallb has_status df); [|discriminate].
  injection H as <-. rewrite map_map. apply map_ext.
  intros r. destruct r as [? ? ? ? ? ? ? ? [s|] ? ? ? ? ? ? ? ? ?]; simpl;
    [|reflexivity].
  now rewrite standardize_status_lookup.
Qed.

Lemma standardize_formats_loan_status_witness :
  map loan_status
      (map (standardize_row parse_iso_column (date_texts status_sample))
           status_sample)
  = [Some "Fully Paid"; Some "Unknown Status"; Some "In-Progress"].
Proof.
  destruct (standardize_formats_loan_status parse_iso_column
              (read_csv_dtypes status_sample) status_sample
              (map (standardize_row parse_iso_column (date_texts status_sample))
                   status_sample))
    as [H _].
  - vm_compute. reflexivity.
  - rewrite H. vm_compute. reflexivity.
Defined.

(** ** Comparisons of numeric cells *)

Lemma Qltb_lt x y : Qltb x y = true <-> x < y.
Proof. unfold Qltb, Qlt. apply Z.ltb_lt. Qed.

Lemma Qleb_le x y : Qleb x y = true <-> x <= y.
Proof. unfold Qleb, Qle. apply Z.leb_le. Qed.

Lemma Qltb_ge x y : Qltb x y = false <-> y <= x.
Proof. unfold Qltb, Qle. rewrite Z.ltb_ge. reflexivity. Qed.

Lemma Qleb_gt x y : Qleb x y = false <-> y < x.
Proof. unfold Qleb, Qlt. rewrite Z.leb_gt. reflexivity. Qed.

Lemma cell_gt_iff c b : cell_gt c b = true <-> exists v, c = Some v /\ b < v.
Proof.
  destruct c as [v|]; simpl.
  - rewrite Qltb_lt. split; [eauto | intros (w & [= <-] & H); exact H].
  - split; [discriminate | intros (w & [=] & _)].
Qed.

Lemma cell_between_iff c lo hi :
  cell_ge c lo && cell_le c hi = true
  <-> exists v, c = Some v /\ lo <= v /\ v <= hi.
Proof.
  destruct c as [v|]; simpl.
  - rewrite andb_true_iff, !Qleb_le.
    split; [eauto | intros (w & [= <-] & H); exact H].
  - split; [discriminate | intros (w & [=] & _)].
Qed.

Lemma in_range_iff r : in_range r = true <-> satisfies_ranges r.
Proof.
  unfold in_range, satisfies_ranges, valid_loan_amount, valid_interest_rate,
    valid_credit_score, valid_annual_income.
  rewrite !andb_true_iff, !cell_gt_iff.
  rewrite <- !andb_true_iff, !cell_between_iff. tauto.
Qed.

(** ** [validate_data_ranges] *)

Lemma filter_filter {A : Type} (f g : A -> bool) (l : list A) :
  filter g (filter f l) = filter (fun x => f x && g x) l.
Proof.
  induction l as [|x l IH]; simpl; [reflexivity|].
  destruct (f x); simpl; [destruct (g x)|]; now rewrite IH.
Qed.

Lemma filter_length_split {A : Type} (f : A -> bool) (l : list A) :
  (List.length (filter f l) + List.length (filter (fun x => negb (f x)) l)
   = List.length l)%nat.
Proof.
  induction l as [|x l IH]; simpl; [reflexivity|].
  destruct (f x); simpl; lia.
Qed.

Lemma validate_data_ranges_filter df :
  fst (validate_data_ranges df) = filter in_range df.
Proof.
  unfold validate_data_ranges; simpl. rewrite !filter_filter.
  apply filter_ext. intro r. unfold in_range. now rewrite !andb_assoc.
Qed.

Lemma validate_data_ranges_in df r :
  In r (fst (validate_data_ranges df)) <-> In r df /\ satisfies_ranges r.
Proof.
  rewrite validate_data_ranges_filter, filter_In, in_range_iff. reflexivity.
Qed.

Lemma subsequence_filter {A : Type} (f : A -> bool) (l : list A) :
  subsequence (filter f l) l.
Proof.
  induction l as [|x l IH]; simpl; [constructor|].
  destruct (f x); now constructor.
Qed.

(** C6: the validator keeps exactly the rows that satisfy the four range
    conditions, in their order; the printed count is the number of rows
    of the input that fail at least one condition, each counted once;
    every row of the result satisfies the four conditions. *)
Theorem validate_data_ranges_keeps_valid_rows (df : DataFrame) :
  fst (validate_data_ranges df) = filter in_range df
  /\ (forall r, in_range r = true <-> satisfies_ranges r)
  /\ (forall r, In r (fst (validate_data_ranges df))
                <-> In r df /\ satisfies_ranges r)
  /\ subsequence (fst (validate_data_ranges df)) df
  /\ snd (validate_data_ranges df)
     = List.length (filter (fun r => negb (in_range r)) df)
  /\ (snd (validate_data_ranges df)
      + List.length (fst (validate_data_ranges df)) = List.length df)%nat
  /\ Forall satisfies_ranges (fst (validate_data_ranges df)).
Proof.
  pose proof (validate_data_ranges_filter df) as Hf.
  pose proof (filter_length_split in_range df) as Hlen.
  assert (Hsnd : snd (validate_data_ranges df)
                 = (List.length df - List.length (fst (validate_data_ranges df)))%nat)
    by reflexivity.
  split; [exact Hf|].
  split; [apply in_range_iff|].
  split; [apply validate_data_ranges_in|].
  split; [rewrite Hf; apply subsequence_filter|].
  split; [rewrite Hsnd, Hf; lia|].
  split; [rewrite Hsnd, Hf; lia|].
  apply Forall_forall. intros r Hr.
  now apply validate_data_ranges_in in Hr.
Qed.

Lemma validate_data_ranges_keeps_valid_rows_witness :
  map loan_id (fst (validate_data_ranges range_sample)) = [Some "L1"]
  /\ snd (validate_data_ranges range_sample) = 2%nat
  /\ satisfies_ranges
       (raw_row "L1" "C1" 12000 60000 500 7 36 (Some 700) (Some "current")
          (Some "2023-01-05")).
Proof.
  split; [reflexivity|]. split; [reflexivity|].
  destruct (validate_data_ranges_keeps_valid_rows range_sample)
    as (_ & _ & Hin & _).
  apply Hin. left. reflexivity.
Defined.

(** ** The steps of [clean] *)

Lemma add_calculated_fields_rows df :
  add_calculated_fields df = map enrich_row df.
Proof. unfold add_calculated_fields. rewrite !map_map. reflexivity. Qed.

Lemma enrich_row_sources r :
  loan_id (enrich_row r) = loan_id r
  /\ customer_id (enrich_row r) = customer_id r
  /\ loan_amount (enrich_row r) = loan_amount r
  /\ annual_income (enrich_row r) = annual_income r
  /\ interest_rate (enrich_row r) = interest_rate r
  /\ credit_score (enrich_row r) = credit_score r
  /\ employment_length (enrich_row r) = employment_length r
  /\ loan_status (enrich_row r) = loan_status r
  /\ application_date (enrich_row r) = application_date r.
Proof. repeat split. Qed.

Section CleanFacts.

Variable parse_datetime : list string -> string -> option Z.
Variable dtypes : TextDtypes.

(** A run that returns, stage by stage. *)
Lemma clean_stages df out :
  clean parse_datetime dtypes df = Some out ->
  let filled := filled_table df in
  str_accessors dtypes = true
  /\ forallb has_status filled = true
  /\ out = map enrich_row
             (filter in_range
                (map (standardize_row parse_datetime (date_texts filled))
                     filled)).
Proof.
  intros H filled. unfold clean in H.
  change (fst (handle_missing_values (fst (remove_duplicates df))))
    with filled in H.
  rewrite standardize_formats_rows in H.
  destruct (str_accessors dtypes); [|discriminate].
  destruct (forallb has_status filled); [|discriminate].
  injection H as <-. split; [reflexivity|]. split; [reflexivity|].
  rewrite add_calculated_fields_rows. f_equal.
  apply validate_data_ranges_filter.
Qed.

End CleanFacts.

(** ** Absent cells and the range tests *)

Lemma satisfies_ranges_present r : satisfies_ranges r -> ranged_cells_present r.
Proof.
  intros ((a & Ha & _) & (i & Hi & _) & (c & Hc & _) & (n & Hn & _)).
  unfold ranged_cells_present. rewrite Ha, Hi, Hc, Hn.
  repeat split; discriminate.
Qed.

(** C10: a comparison with an absent cell is false, so the validator
    removes every row with an absent loan amount, interest rate, credit
    score or annual income; no row of its result, and no row of the
    table that [clean] hands to the writer, has one of these four cells
    absent, whether or not the median fill took place. *)
Theorem validate_data_ranges_removes_absent :
  (forall bound, cell_gt None bound = false /\ cell_ge None bound = false
                 /\ cell_le None bound = false)
  /\ (forall df r,
        In r df ->
        loan_amount r = None \/ interest_rate r = None
        \/ credit_score r = None \/ annual_income r = None ->
        ~ In r (fst (validate_data_ranges df)))
  /\ (forall df r,
        In r (fst (validate_data_ranges df)) -> ranged_cells_present r)
  /\ (forall parse_datetime dtypes df out r,
        clean parse_datetime dtypes df = Some out -> In r out ->
        ranged_cells_present r).
Proof.
  assert (Hstage : forall df r,
             In r (fst (validate_data_ranges df)) -> ranged_cells_present r).
  { intros df r Hr. apply validate_data_ranges_in in Hr.
    now apply satisfies_ranges_present. }
  split; [intro; repeat split|].
  split.
  { intros df r _ Habsent Hr. destruct (Hstage df r Hr) as (Ha & Hi & Hc & Hn).
    tauto. }
  split; [exact Hstage|].
  intros parse_datetime dtypes df out r Hclean Hr.
  destruct (clean_stages _ _ _ _ Hclean) as (_ & _ & ->).
  apply in_map_iff in Hr. destruct Hr as (r0 & <- & Hr0).
  apply filter_In in Hr0. destruct Hr0 as [_ Hr0].
  apply in_range_iff, satisfies_ranges_present in Hr0.
  exact Hr0.
Qed.

Lemma validate_data_ranges_removes_absent_witness :
  clean parse_iso_column (read_csv_dtypes no_score_sample) no_score_sample
  = Some []
  /\ ~ In (raw_row "L1" "C1" 12000 60000 500 7 36 None (Some "current")
             (Some "2023-01-05"))
          (fst (validate_data_ranges no_score_sample)).
Proof.
  split; [vm_compute; reflexivity|].
  destruct validate_data_ranges_removes_absent as (_ & Hremoved & _).
  apply Hremoved.
  - simpl. left. reflexivity.
  - right. right. left. reflexivity.
Defined.

(** ** [add_calculated_fields]: the two bucketings *)

Lemma enrich_row_derived r :
  loan_to_income (enrich_row r)
  = cell_round 4 (cell_div (loan_amount r) (annual_income r))
  /\ total_interest (enrich_row r)
     = cell_round 2
         (cell_sub (cell_mul (monthly_payment r) (loan_term r)) (loan_amount r))
  /\ loan_category (enrich_row r)
     = cut (loan_amount r) loan_category_bins loan_category_labels
  /\ credit_band (enrich_row r)
     = cut (credit_score r) credit_band_bins credit_band_labels.
Proof. repeat split. Qed.

Ltac decide_edges :=
  repeat match goal with
         | |- context [Qltb ?b ?x] =>
             let E := fresh "E" in destruct (Qltb b x) eqn:E
         end;
  repeat match goal with
         | H : Qltb _ _ = true |- _ => apply Qltb_lt in H
         | H : Qltb _ _ = false |- _ => apply Qltb_ge in H
         end.

Lemma cut_loan_category a :
  (a <= 0 -> cut (Some a) loan_category_bins loan_category_labels = None)
  /\ (0 < a -> a <= 10000 ->
      cut (Some a) loan_category_bins loan_category_labels = Some "Small")
  /\ (10000 < a -> a <= 25000 ->
      cut (Some a) loan_category_bins loan_category_labels = Some "Medium")
  /\ (25000 < a ->
      cut (Some a) loan_category_bins loan_category_labels = Some "Large").
Proof.
  unfold cut, loan_category_bins, loan_category_labels, searchsorted_left, edge_ltb.
  repeat split; intros; decide_edges; simpl; try reflexivity; exfalso; lra.
Qed.

Lemma cut_credit_band c :
  (c <= 0 -> cut (Some c) credit_band_bins credit_band_labels = None)
  /\ (0 < c -> c <= 600 ->
      cut (Some c) credit_band_bins credit_band_labels = Some "Very Poor")
  /\ (600 < c -> c <= 650 ->
      cut (Some c) credit_band_bins credit_band_labels = Some "Poor")
  /\ (650 < c -> c <= 700 ->
      cut (Some c) credit_band_bins credit_band_labels = Some "Fair")
  /\ (700 < c -> c <= 750 ->
      cut (Some c) credit_band_bins credit_band_labels = Some "Good")
  /\ (750 < c -> c <= 850 ->
      cut (Some c) credit_band_bins credit_band_labels = Some "Excellent")
  /\ (850 < c -> cut (Some c) credit_band_bins credit_band_labels = None).
Proof.
  unfold cut, credit_band_bins, credit_band_labels, searchsorted_left, edge_ltb.
  repeat split; intros; decide_edges; simpl; try reflexivity; exfalso; lra.
Qed.

(** C8: [loan_category] and [credit_band] are cut into left-open,
    right-closed intervals: Small on (0, 10000], Medium on
    (10000, 25000], Large above 25000; Very Poor on (0, 600], Poor on
    (600, 650], Fair on (650, 700], Good on (700, 750], Excellent on
    (750, 850].  10000 is Small and 10000.01 Medium, 650 is Poor and 651
    Fair, and every row that passed the validator gets one label of each
    family. *)
Theorem add_calculated_fields_buckets :
  (forall df,
      map loan_category (add_calculated_fields df)
      = map (fun r => cut (loan_amount r) loan_category_bins loan_category_labels) df
      /\ map credit_band (add_calculated_fields df)
         = map (fun r => cut (credit_score r) credit_band_bins credit_band_labels) df)
  /\ (forall a,
         (0 < a -> a <= 10000 ->
          cut (Some a) loan_category_bins loan_category_labels = Some "Small")
         /\ (10000 < a -> a <= 25000 ->
             cut (Some a) loan_category_bins loan_category_labels = Some "Medium")
         /\ (25000 < a ->
             cut (Some a) loan_category_bins loan_category_labels = Some "Large"))
  /\ (forall c,
         (0 < c -> c <= 600 ->
          cut (Some c) credit_band_bins credit_band_labels = Some "Very Poor")
         /\ (600 < c -> c <= 650 ->
             cut (Some c) credit_band_bins credit_band_labels = Some "Poor")
         /\ (650 < c -> c <= 700 ->
             cut (Some c) credit_band_bins credit_band_labels = Some "Fair")
         /\ (700 < c -> c <= 750 ->
             cut (Some c) credit_band_bins credit_band_labels = Some "Good")
         /\ (750 < c -> c <= 850 ->
             cut (Some c) credit_band_bins credit_band_labels = Some "Excellent"))
  /\ cut (Some 10000) loan_category_bins loan_category_labels = Some "Small"
  /\ cut (Some 10000.01) loan_category_bins loan_category_labels = Some "Medium"
  /\ cut (Some 650) credit_band_bins credit_band_labels = Some "Poor"
  /\ cut (Some 651) credit_band_bins credit_band_labels = Some "Fair"
  /\ (forall df r,
         In r (add_calculated_fields (fst (validate_data_ranges df))) ->
         (exists label, loan_category r = Some label
                        /\ In label loan_category_labels)
         /\ (exists label, credit_band r = Some label
                           /\ In label credit_band_labels)).
Proof.
  split.
  { intro df. rewrite add_calculated_fields_rows, !map_map. split; reflexivity. }
  split; [intro a; pose proof (cut_loan_category a); tauto|].
  split; [intro c; pose proof (cut_credit_band c); tauto|].
  do 4 (split; [reflexivity|]).
  intros df r Hr. rewrite add_calculated_fields_rows in Hr.
  apply in_map_iff in Hr. destruct Hr as (r0 & <- & Hr0).
  apply validate_data_ranges_in in Hr0.
  destruct Hr0 as (_ & (a & Ha & Hapos) & _ & (c & Hc & Hclo & Hchi) & _).
  destruct (enrich_row_derived r0) as (_ & _ & -> & ->).
  rewrite Ha, Hc. split.
  - destruct (cut_loan_category a) as (_ & Hs & Hm & Hl).
    destruct (Qlt_le_dec 10000 a) as [H1|H1];
      [destruct (Qlt_le_dec 25000 a) as [H2|H2]|].
    + exists "Large". rewrite Hl by exact H1 || exact H2. simpl; tauto.
    + exists "Medium". rewrite Hm by assumption. simpl; tauto.
    + exists "Small". rewrite Hs by assumption. simpl; tauto.
  - destruct (cut_credit_band c) as (_ & Hvp & Hp & Hf & Hg & He & _).
    assert (Hcpos : 0 < c) by lra.
    destruct (Qlt_le_dec 600 c) as [H1|H1];
      [destruct (Qlt_le_dec 650 c) as [H2|H2];
       [destruct (Qlt_le_dec 700 c) as [H3|H3];
        [destruct (Qlt_le_dec 750 c) as [H4|H4]|]|]|].
    + exists "Excellent". rewrite He by assumption. simpl; tauto.
    + exists "Good". rewrite Hg by assumption. simpl; tauto.
    + exists "Fair". rewrite Hf by assumption. simpl; tauto.
    + exists "Poor". rewrite Hp by assumption. simpl; tauto.
    + exists "Very Poor". rewrite Hvp by assumption. simpl; tauto.
Qed.

Lemma add_calculated_fields_buckets_witness :
  cut (Some 10000) loan_category_bins loan_category_labels = Some "Small"
  /\ cut (Some 600) credit_band_bins credit_band_labels = Some "Very Poor".
Proof.
  destruct add_calculated_fields_buckets as (_ & Hcategory & Hband & _).
  split.
  - apply (Hcategory 10000); [reflexivity | discriminate].
  - apply (Hband 600); [reflexivity | discriminate].
Defined.

(** ** [add_calculated_fields]: rounding *)

Lemma rint_close x : Qabs (inject_Z (rint x) - x) <= 1 # 2.
Proof.
  pose proof (Qfloor_le x) as Hlo. pose proof (Qlt_floor x) as Hhi.
  rewrite inject_Z_plus in Hhi. change (inject_Z 1) with 1 in Hhi.
  unfold rint.
  destruct (Qltb (2 * (x - inject_Z (Qfloor x))) 1) eqn:E1;
    [apply Qltb_lt in E1
    |apply Qltb_ge in E1;
     destruct (Qltb 1 (2 * (x - inject_Z (Qfloor x)))) eqn:E2;
     [apply Qltb_lt in E2 | apply Qltb_ge in E2; destruct (Z.even (Qfloor x))]];
    rewrite ?inject_Z_plus; change (inject_Z 1) with 1;
    apply Qabs_case; intros; lra.
Qed.

Lemma pow10_pos d : 0 < pow10 d.
Proof.
  unfold pow10. change 0 with (inject_Z 0). rewrite <- Zlt_Qlt.
  apply Z.pow_pos_nonneg; lia.
Qed.

(** The rounded value has [d] decimals. *)
Lemma round_to_grid d x :
  round_to d x * pow10 d == inject_Z (rint (x * pow10 d)).
Proof. unfold round_to. pose proof (pow10_pos d). field. lra. Qed.

Lemma cell_div_positive a n : 0 < n -> cell_div (Some a) (Some n) = Some (a / n).
Proof.
  intro Hn. simpl. destruct (Qeq_bool n 0) eqn:E; [|reflexivity].
  apply Qeq_bool_iff in E. lra.
Qed.

(** ** [remove_duplicates] *)

Lemma cell_eqb_refl {A : Type} (eqb : A -> A -> bool) :
  (forall x, eqb x x = true) -> forall c, cell_eqb eqb c c = true.
Proof. intros H [x|]; simpl; auto. Qed.

Lemma cell_eqb_sym {A : Type} (eqb : A -> A -> bool) :
  (forall x y, eqb x y = true -> eqb y x = true) ->
  forall c c', cell_eqb eqb c c' = true -> cell_eqb eqb c' c = true.
Proof. intros H [x|] [y|]; simpl; auto. Qed.

Lemma cell_eqb_trans {A : Type} (eqb : A -> A -> bool) :
  (forall x y z, eqb x y = true -> eqb y z = true -> eqb x z = true) ->
  forall a b c,
    cell_eqb eqb a b = true -> cell_eqb eqb b c = true -> cell_eqb eqb a c = true.
Proof. intros H [x|] [y|] [z|]; simpl; eauto; discriminate. Qed.

Lemma date_value_eqb_eq a b : date_value_eqb a b = true <-> a = b.
Proof.
  destruct a as [s|t], b as [s'|t']; simpl;
    rewrite ?String.eqb_eq, ?Z.eqb_eq; split; congruence.
Qed.

Lemma key_eqb_refl k : key_eqb k k = true.
Proof.
  destruct k as [[c a] d]. unfold key_eqb.
  rewrite !cell_eqb_refl; auto using String.eqb_refl, Qeq_bool_refl.
  intro x. now apply date_value_eqb_eq.
Qed.

Lemma key_eqb_sym k k' : key_eqb k k' = true -> key_eqb k' k = true.
Proof.
  destruct k as [[c a] d], k' as [[c' a'] d']. unfold key_eqb.
  rewrite !andb_true_iff. intros [[Hc Ha] Hd]. repeat split.
  - revert Hc. apply cell_eqb_sym. intros x y. now rewrite String.eqb_sym.
  - revert Ha. apply cell_eqb_sym. intros x y. apply Qeq_bool_sym.
  - revert Hd. apply cell_eqb_sym. intros x y. rewrite !date_value_eqb_eq. congruence.
Qed.

Lemma key_eqb_trans k1 k2 k3 :
  key_eqb k1 k2 = true -> key_eqb k2 k3 = true -> key_eqb k1 k3 = true.
Proof.
  destruct k1 as [[c1 a1] d1], k2 as [[c2 a2] d2], k3 as [[c3 a3] d3].
  unfold key_eqb. rewrite !andb_true_iff.
  intros [[Hc Ha] Hd] [[Hc' Ha'] Hd']. repeat split.
  - revert Hc Hc'. apply cell_eqb_trans. intros x y z.
    rewrite !String.eqb_eq. congruence.
  - revert Ha Ha'. apply cell_eqb_trans. intros x y z. apply Qeq_bool_trans.
  - revert Hd Hd'. apply cell_eqb_trans. intros x y z.
    rewrite !date_value_eqb_eq. congruence.
Qed.

(** Two keys that match each other match the same keys. *)
Lemma key_eqb_congr k k' k0 :
  key_eqb k k' = true -> key_eqb k k0 = key_eqb k' k0.
Proof.
  intro H.
  destruct (key_eqb k k0) eqn:E1, (key_eqb k' k0) eqn:E2; try reflexivity.
  - rewrite <- E2. symmetry. apply (key_eqb_trans k' k k0); auto using key_eqb_sym.
  - rewrite <- E1. apply (key_eqb_trans k k' k0); auto.
Qed.

Lemma existsb_key_congr k k' seen :
  key_eqb k k' = true ->
  existsb (key_eqb k) seen = existsb (key_eqb k') seen.
Proof.
  intro H. induction seen as [|k0 seen IH]; simpl; [reflexivity|].
  now rewrite IH, (key_eqb_congr k k' k0 H).
Qed.

Lemma keep_new_cons seen r df :
  keep_new seen (r :: df) =
  if existsb (key_eqb (key_of r)) seen
  then keep_new (key_of r :: seen) df
  else r :: keep_new (key_of r :: seen) df.
Proof.
  unfold keep_new. simpl.
  destruct (existsb (key_eqb (key_of r)) seen); reflexivity.
Qed.

Lemma keep_new_subsequence seen df : subsequence (keep_new seen df) df.
Proof.
  revert seen; induction df as [|r df IH]; intro seen.
  - constructor.
  - rewrite keep_new_cons.
    destruct (existsb (key_eqb (key_of r)) seen); constructor; apply IH.
Qed.

(** The rows kept for the key of [r]: none when the key was met before,
    else the first row of [df] with that key. *)
Lemma keep_new_group seen df r :
  filter (same_key r) (keep_new seen df) =
  if existsb (key_eqb (key_of r)) seen then []
  else firstn 1 (filter (same_key r) df).
Proof.
  revert seen; induction df as [|x df IH]; intro seen.
  - simpl. now destruct (existsb (key_eqb (key_of r)) seen).
  - rewrite keep_new_cons. cbn [filter].
    destruct (same_key r x) eqn:Erx.
    + assert (Hseen : existsb (key_eqb (key_of r)) (key_of x :: seen) = true).
      { cbn [existsb]. unfold same_key in Erx. now rewrite Erx. }
      rewrite <- (existsb_key_congr _ _ seen Erx).
      destruct (existsb (key_eqb (key_of r)) seen) eqn:Eseen.
      * now rewrite IH, Hseen.
      * cbn [filter firstn]. now rewrite Erx, IH, Hseen.
    + assert (Hskip : filter (same_key r) (keep_new (key_of x :: seen) df)
                      = if existsb (key_eqb (key_of r)) seen then []
                        else firstn 1 (filter (same_key r) df)).
      { rewrite IH. cbn [existsb]. unfold same_key in Erx. now rewrite Erx. }
      destruct (existsb (key_eqb (key_of x)) seen); [exact Hskip|].
      cbn [filter]. now rewrite Erx.
Qed.

Lemma keep_new_fresh seen df r :
  In r (keep_new seen df) ->
  forall k, In k seen -> key_eqb (key_of r) k = false.
Proof.
  revert seen; induction df as [|x df IH]; intros seen Hr k Hk.
  - destruct Hr.
  - rewrite keep_new_cons in Hr.
    destruct (existsb (key_eqb (key_of x)) seen) eqn:E.
    + apply (IH (key_of x :: seen)); [exact Hr | now right].
    + destruct Hr as [<-|Hr].
      * destruct (key_eqb (key_of x) k) eqn:Ek; [|reflexivity].
        rewrite <- E. symmetry. apply existsb_exists. eauto.
      * apply (IH (key_of x :: seen)); [exact Hr | now right].
Qed.

Lemma keep_new_distinct seen df : distinct_keys (keep_new seen df).
Proof.
  revert seen; induction df as [|x df IH]; intro seen.
  - constructor.
  - rewrite keep_new_cons.
    destruct (existsb (key_eqb (key_of x)) seen); [apply IH|].
    constructor; [|apply IH].
    apply Forall_forall. intros r Hr. unfold same_key.
    destruct (key_eqb (key_of x) (key_of r)) eqn:E; [|reflexivity].
    apply key_eqb_sym in E.
    rewrite (keep_new_fresh _ _ _ Hr (key_of x)) in E; [discriminate | now left].
Qed.

Lemma subsequence_length {A : Type} (l l' : list A) :
  subsequence l l' -> (List.length l <= List.length l')%nat.
Proof. induction 1; simpl; lia. Qed.

Lemma subsequence_in {A : Type} (l l' : list A) x :
  subsequence l l' -> In x l -> In x l'.
Proof. induction 1; simpl; intuition. Qed.

(** C4: the deduplicator returns a subsequence of its input (kept rows
    stay in order) with pairwise different keys; of the rows that share
    a key it keeps exactly the first one of the input, so a group of any
    size leaves one row; an absent key cell matches an absent key
    cell. *)
Theorem remove_duplicates_keeps_first (df : DataFrame) :
  subsequence (fst (remove_duplicates df)) df
  /\ distinct_keys (fst (remove_duplicates df))
  /\ (forall r,
        filter (same_key r) (fst (remove_duplicates df))
        = firstn 1 (filter (same_key r) df))
  /\ (forall r, In r df ->
        exists first,
          hd_error (filter (same_key r) df) = Some first
          /\ filter (same_key r) (fst (remove_duplicates df)) = [first])
  /\ (snd (remove_duplicates df) + List.length (fst (remove_duplicates df))
      = List.length df)%nat
  /\ cell_eqb String.eqb None None = true
  /\ cell_eqb Qeq_bool None None = true
  /\ cell_eqb date_value_eqb None None = true
  /\ map loan_id (fst (remove_duplicates absent_key_sample))
     = [Some "L1"; Some "L2"].
Proof.
  change (fst (remove_duplicates df)) with (keep_new [] df).
  change (snd (remove_duplicates df))
    with (List.length df - List.length (keep_new [] df))%nat.
  split; [apply keep_new_subsequence|].
  split; [apply keep_new_distinct|].
  split; [intro r; apply keep_new_group|].
  split.
  { intros r Hr. rewrite keep_new_group. cbn [existsb].
    destruct (filter (same_key r) df) as [|first rest] eqn:E.
    - exfalso. assert (Hin : In r (filter (same_key r) df)).
      { apply filter_In. split; [exact Hr | apply key_eqb_refl]. }
      rewrite E in Hin. destruct Hin.
    - exists first. split; reflexivity. }
  split.
  { pose proof (subsequence_length _ _ (keep_new_subsequence [] df)). lia. }
  repeat split.
Qed.

Lemma remove_duplicates_keeps_first_witness :
  exists first,
    loan_id first = Some "L1"
    /\ filter (same_key (raw_row "L3" "C1" 12000 50000 400 8 36 (Some 650)
                           (Some "current") None))
              (fst (remove_duplicates absent_key_sample))
       = [first].
Proof.
  destruct (remove_duplicates_keeps_first absent_key_sample)
    as (_ & _ & _ & Hfirst & _).
  destruct (Hfirst (raw_row "L3" "C1" 12000 50000 400 8 36 (Some 650)
                      (Some "current") None))
    as (first & Hhead & Hkept).
  - right. right. left. reflexivity.
  - exists first. split; [|exact Hkept].
    injection Hhead as <-. reflexivity.
Defined.

(** ** [handle_missing_values] *)

(** A fill guarded by [isnull().any()] is the fill itself: without an
    absent cell it changes nothing. *)
Lemma guarded_fill {A : Type} (null : A -> bool) (g : A -> A) (l : list A) :
  (forall x, null x = false -> g x = x) ->
  (if existsb null l then map g l else l) = map g l.
Proof.
  intro Hg. destruct (existsb null l) eqn:E; [reflexivity|].
  induction l as [|x l IH]; simpl in *; [reflexivity|].
  apply orb_false_iff in E. destruct E as [Ex El].
  now rewrite (Hg x Ex), <- IH.
Qed.

Lemma handle_missing_values_rows df :
  fst (handle_missing_values df) =
  map (fill_row (median (map credit_score (filter has_critical_fields df))))
      (filter has_critical_fields df).
Proof.
  unfold handle_missing_values. cbn [fst].
  set (kept := filter has_critical_fields df).
  set (m := median (map credit_score kept)).
  unfold fill_credit_score, fill_employment_length.
  rewrite (guarded_fill (fun r => isnull (credit_score r))).
  - rewrite (guarded_fill (fun r => isnull (employment_length r))).
    + rewrite map_map. reflexivity.
    + intros r Hr. destruct r as [? ? ? ? ? ? ? [e|] ? ? ? ? ? ? ? ? ? ?];
        [reflexivity | discriminate].
  - intros r Hr. destruct r as [? ? ? ? ? ? [c|] ? ? ? ? ? ? ? ? ? ? ?];
      [reflexivity | discriminate].
Qed.

Lemma dropna_values_nil col :
  dropna_values col = [] <-> forall c, In c col -> c = None.
Proof.
  induction col as [|[v|] col IH]; simpl.
  - split; [intros _ c [] | reflexivity].
  - split; [discriminate | intro H; now specialize (H (Some v) (or_introl eq_refl))].
  - rewrite IH. split; intros H c; [intros [<-|Hc]; auto | auto].
Qed.

Lemma insert_sorted_length x l :
  List.length (insert_sorted x l) = S (List.length l).
Proof.
  induction l as [|y l IH]; simpl; [reflexivity|].
  destruct (Qleb x y); simpl; [reflexivity | now rewrite IH].
Qed.

Lemma sort_values_length l : List.length (sort_values l) = List.length l.
Proof.
  induction l as [|x l IH]; simpl; [reflexivity|].
  now rewrite insert_sorted_length, IH.
Qed.

(** The median is absent exactly when every cell of the column is. *)
Lemma median_none col : median col = None <-> forall c, In c col -> c = None.
Proof.
  rewrite <- dropna_values_nil. unfold median.
  rewrite sort_values_length.
  destruct (dropna_values col) as [|v vs]; simpl List.length.
  - split; reflexivity.
  - destruct (Nat.odd (S (List.length vs))); split; discriminate.
Qed.

(** Sorting keeps the values and puts them in order. *)
Lemma count_where_insert_sorted f x l :
  count_where f (insert_sorted x l) = count_where f (x :: l).
Proof.
  unfold count_where. induction l as [|y l IH]; simpl; [reflexivity|].
  destruct (Qleb x y); simpl; [reflexivity|].
  simpl in IH. destruct (f y), (f x); simpl in *; lia.
Qed.

Lemma count_where_sort_values f l :
  count_where f (sort_values l) = count_where f l.
Proof.
  induction l as [|x l IH]; simpl; [reflexivity|].
  rewrite count_where_insert_sorted. unfold count_where in *. simpl.
  destruct (f x); simpl; now rewrite IH.
Qed.

Lemma insert_sorted_in x l y : In y (insert_sorted x l) -> y = x \/ In y l.
Proof.
  induction l as [|z l IH]; simpl; [intuition|].
  destruct (Qleb x z); simpl; intuition.
Qed.

Lemma insert_sorted_sorted x l :
  StronglySorted Qle l -> StronglySorted Qle (insert_sorted x l).
Proof.
  induction 1 as [|y l Hl IH Hy]; simpl.
  - repeat constructor.
  - destruct (Qleb x y) eqn:E.
    + apply Qleb_le in E. constructor; [now constructor|].
      constructor; [exact E|].
      apply Forall_forall. intros z Hz.
      rewrite Forall_forall in Hy. specialize (Hy z Hz). lra.
    + apply Qleb_gt in E. constructor; [exact IH|].
      apply Forall_forall. intros z Hz.
      apply insert_sorted_in in Hz. destruct Hz as [->|Hz]; [lra|].
      rewrite Forall_forall in Hy. auto.
Qed.

Lemma sort_values_sorted l : StronglySorted Qle (sort_values l).
Proof.
  induction l; simpl; [constructor | now apply insert_sorted_sorted].
Qed.

Lemma sorted_count_le s i :
  StronglySorted Qle s -> (i < List.length s)%nat ->
  (i + 1 <= count_where (fun v => Qleb v (nth i s 0%Q)) s)%nat.
Proof.
  intro Hs. revert i. induction Hs as [|x s Hs IH Hx]; intros i Hi; simpl in Hi.
  - lia.
  - unfold count_where in *. destruct i as [|j]; simpl.
    + assert (E : Qleb x x = true) by (apply Qleb_le; lra).
      rewrite E. simpl. lia.
    + assert (E : Qleb x (nth j s 0) = true).
      { apply Qleb_le. rewrite Forall_forall in Hx. apply Hx, nth_In. lia. }
      rewrite E. simpl. specialize (IH j). lia.
Qed.

Lemma sorted_count_ge s i :
  StronglySorted Qle s -> (i < List.length s)%nat ->
  (List.length s - i <= count_where (fun v => Qleb (nth i s 0%Q) v) s)%nat.
Proof.
  intro Hs. revert i. induction Hs as [|x s Hs IH Hx]; intros i Hi; simpl in Hi.
  - lia.
  - unfold count_where in *. destruct i as [|j]; simpl.
    + assert (E : Qleb x x = true) by (apply Qleb_le; lra).
      rewrite E. simpl.
      assert (Hall : filter (fun v => Qleb x v) s = s).
      { apply forallb_filter_id. apply forallb_forall. intros v Hv.
        apply Qleb_le. rewrite Forall_forall in Hx. auto. }
      rewrite Hall. lia.
    + specialize (IH j). destruct (Qleb (nth j s 0) x); simpl; lia.
Qed.

Lemma sorted_nth_le s i j :
  StronglySorted Qle s -> (i <= j)%nat -> (j < List.length s)%nat ->
  nth i s 0 <= nth j s 0.
Proof.
  intro Hs. revert i j. induction Hs as [|x s Hs IH Hx]; intros i j Hij Hj; simpl in Hj.
  - lia.
  - destruct i as [|i], j as [|j]; simpl; try lia; try lra.
    + rewrite Forall_forall in Hx. apply Hx, nth_In. lia.
    + apply IH; lia.
Qed.

Lemma count_where_mono (f g : Q -> bool) l :
  (forall v, f v = true -> g v = true) -> (count_where f l <= count_where g l)%nat.
Proof.
  intro H. unfold count_where. induction l as [|x l IH]; simpl; [lia|].
  destruct (f x) eqn:E; [rewrite (H x E); simpl; lia|].
  destruct (g x); simpl; lia.
Qed.

Lemma half_of_odd n : Nat.odd n = true -> n = (2 * (n / 2) + 1)%nat.
Proof.
  intro H. rewrite (Nat.div_mod_eq n 2) at 1.
  now rewrite <- Nat.bit0_mod, Nat.bit0_odd, H.
Qed.

Lemma half_of_even n : Nat.odd n = false -> n = (2 * (n / 2))%nat.
Proof.
  intro H. rewrite (Nat.div_mod_eq n 2) at 1.
  rewrite <- Nat.bit0_mod, Nat.bit0_odd, H. simpl. lia.
Qed.

Lemma mean_between a b : a <= b -> a <= (a + b) / 2 /\ (a + b) / 2 <= b.
Proof.
  intro H. assert (E : (a + b) / 2 == (1 # 2) * a + (1 # 2) * b) by field.
  rewrite E. split; lra.
Qed.

(** The median has at least half of the values at or below it and at
    least half of them at or above it. *)
Lemma median_is_median col m :
  median col = Some m ->
  (List.length (dropna_values col)
   <= 2 * count_where (fun v => Qleb v m) (dropna_values col))%nat
  /\ (List.length (dropna_values col)
      <= 2 * count_where (fun v => Qleb m v) (dropna_values col))%nat.
Proof.
  unfold median.
  rewrite <- !(count_where_sort_values _ (dropna_values col)).
  rewrite <- (sort_values_length (dropna_values col)).
  pose proof (sort_values_sorted (dropna_values col)) as Hs.
  set (s := sort_values (dropna_values col)) in *.
  destruct (List.length s) as [|k] eqn:En; [discriminate|].
  rewrite <- En. assert (Hn : (0 < List.length s)%nat) by lia. clear En k.
  pose proof (sorted_count_le s) as Hle. pose proof (sorted_count_ge s) as Hge.
  pose proof (sorted_nth_le s) as Hnth.
  set (n := List.length s) in *.
  pose proof (half_of_odd n) as Hodd. pose proof (half_of_even n) as Heven.
  remember (n / 2)%nat as h eqn:Eh. clear Eh.
  destruct (Nat.odd n); intros [= <-].
  - specialize (Hodd eq_refl). specialize (Hle h Hs). specialize (Hge h Hs). lia.
  - specialize (Heven eq_refl).
    specialize (Hle (h - 1)%nat Hs). specialize (Hge h Hs).
    specialize (Hnth (h - 1)%nat h Hs).
    set (a := nth (h - 1) s 0) in *. set (b := nth h s 0) in *.
    destruct (mean_between a b) as [Ha Hb]; [apply Hnth; lia|].
    assert (Hbelow : (count_where (fun v => Qleb v a) s
                      <= count_where (fun v => Qleb v ((a + b) / 2)) s)%nat).
    { apply count_where_mono. intros v Hv.
      apply Qleb_le in Hv. apply Qleb_le. lra. }
    assert (Habove : (count_where (fun v => Qleb b v) s
                      <= count_where (fun v => Qleb ((a + b) / 2) v) s)%nat).
    { apply count_where_mono. intros v Hv.
      apply Qleb_le in Hv. apply Qleb_le. lra. }
    lia.
Qed.

Lemma has_critical_fields_iff r :
  has_critical_fields r = true
  <-> loan_id r <> None /\ customer_id r <> None
      /\ loan_amount r <> None /\ loan_status r <> None.
Proof.
  unfold has_critical_fields, notnull.
  destruct (loan_id r), (customer_id r), (loan_amount r), (loan_status r);
    simpl; split; intro H; try discriminate; try reflexivity;
    try (repeat split; discriminate); exfalso; tauto.
Qed.

Lemma fill_row_cells m r :
  credit_score (fill_row m r)
  = match credit_score r with Some c => Some c | None => m end
  /\ employment_length (fill_row m r)
     = match employment_length r with Some e => Some e | None => Some 0 end
  /\ set_credit_score (credit_score r)
       (set_employment_length (employment_length r) (fill_row m r)) = r.
Proof.
  destruct r as [? ? ? ? ? ? [c|] [e|] ? ? ? ? ? ? ? ? ? ?]; repeat split.
Qed.

(** C5: the handler first drops the rows without a loan id, customer
    id, loan amount or loan status and prints their number; every row
    that is left gets its absent credit score replaced by the median of
    the credit scores present among the rows that are left, and its
    absent employment length replaced by 0, nothing else being changed;
    when no credit score is present the median is absent, the credit
    scores stay as they are, and the stage still returns its table. *)
Theorem handle_missing_values_fills (df : DataFrame) :
  let kept := filter has_critical_fields df in
  let median_score := median (map credit_score kept) in
  let out := fst (handle_missing_values df) in
  snd (handle_missing_values df) = (List.length df - List.length kept)%nat
  /\ (forall r, In r kept <->
                In r df /\ loan_id r <> None /\ customer_id r <> None
                /\ loan_amount r <> None /\ loan_status r <> None)
  /\ subsequence kept df
  /\ out = map (fill_row median_score) kept
  /\ (forall r,
        credit_score (fill_row median_score r)
        = match credit_score r with Some c => Some c | None => median_score end
        /\ employment_length (fill_row median_score r)
           = match employment_length r with Some e => Some e | None => Some 0 end
        /\ set_credit_score (credit_score r)
             (set_employment_length (employment_length r)
                (fill_row median_score r)) = r)
  /\ ((exists r, In r kept /\ credit_score r <> None) ->
      exists m,
        median_score = Some m
        /\ (List.length (dropna_values (map credit_score kept))
            <= 2 * count_where (fun v => Qleb v m)
                     (dropna_values (map credit_score kept)))%nat
        /\ (List.length (dropna_values (map credit_score kept))
            <= 2 * count_where (fun v => Qleb m v)
                     (dropna_values (map credit_score kept)))%nat
        /\ Forall (fun r => credit_score r <> None) out)
  /\ ((forall r, In r kept -> credit_score r = None) ->
      median_score = None /\ map credit_score out = map credit_score kept)
  /\ Forall (fun r => employment_length r <> None) out.
Proof.
  intros kept median_score out.
  assert (Hout : out = map (fill_row median_score) kept)
    by apply handle_missing_values_rows.
  split; [reflexivity|].
  split.
  { intro r. unfold kept. rewrite filter_In, has_critical_fields_iff. tauto. }
  split; [apply subsequence_filter|].
  split; [exact Hout|].
  split; [intro r; apply fill_row_cells|].
  split.
  { intros (r & Hr & Hscore).
    destruct median_score as [m|] eqn:Em.
    - exists m. split; [reflexivity|].
      destruct (median_is_median _ _ Em) as [Hle Hge].
      split; [exact Hle|]. split; [exact Hge|].
      rewrite Hout. apply Forall_forall. intros r' Hr'.
      apply in_map_iff in Hr'. destruct Hr' as (r0 & <- & _).
      destruct (fill_row_cells (Some m) r0) as (-> & _).
      destruct (credit_score r0); discriminate.
    - exfalso. apply Hscore.
      apply (proj1 (median_none (map credit_score kept)) Em).
      now apply in_map. }
  split.
  { intro Hnone.
    assert (Em : median_score = None).
    { apply median_none. intros c Hc. apply in_map_iff in Hc.
      destruct Hc as (r & <- & Hr). now apply Hnone. }
    split; [exact Em|].
    rewrite Hout, map_map. apply map_ext_in. intros r Hr.
    destruct (fill_row_cells median_score r) as (-> & _).
    rewrite Em. now destruct (credit_score r). }
  rewrite Hout. apply Forall_forall. intros r' Hr'.
  apply in_map_iff in Hr'. destruct Hr' as (r0 & <- & _).
  destruct (fill_row_cells median_score r0) as (_ & -> & _).
  destruct (employment_length r0); discriminate.
Qed.

Lemma handle_missing_values_fills_witness :
  median (map credit_score (filter has_critical_fields median_sample))
  = Some ((640 + 700) / 2)
  /\ map loan_id (fst (handle_missing_values median_sample))
     = [Some "L1"; Some "L2"; Some "L4"]
  /\ snd (handle_missing_values median_sample) = 1%nat
  /\ Forall (fun r => credit_score r <> None)
            (fst (handle_missing_values median_sample)).
Proof.
  split; [vm_compute; reflexivity|].
  split; [vm_compute; reflexivity|].
  split; [vm_compute; reflexivity|].
  destruct (handle_missing_values_fills median_sample)
    as (_ & _ & _ & _ & _ & Hfill & _).
  destruct Hfill as (m & _ & _ & _ & Hall); [|exact Hall].
  exists (raw_row "L1" "C1" 12000 60000 500 7 36 (Some 700) (Some "current")
            (Some "2023-01-05")).
  split; [vm_compute; left; reflexivity | discriminate].
Defined.

(** ** [standardize_formats] in a run *)

Lemma fill_row_keeps m r :
  loan_id (fill_row m r) = loan_id r
  /\ customer_id (fill_row m r) = customer_id r
  /\ loan_amount (fill_row m r) = loan_amount r
  /\ loan_status (fill_row m r) = loan_status r
  /\ application_date (fill_row m r) = application_date r.
Proof. repeat split. Qed.

Lemma standardize_row_cells parse_datetime texts r :
  customer_id (standardize_row parse_datetime texts r) = customer_id r
  /\ loan_amount (standardize_row parse_datetime texts r) = loan_amount r
  /\ loan_status (standardize_row parse_datetime texts r)
     = option_map standardize_status (loan_status r)
  /\ purpose (standardize_row parse_datetime texts r)
     = option_map Text.strip (purpose r)
  /\ application_date (standardize_row parse_datetime texts r)
     = to_datetime_cell parse_datetime (application_texts texts)
         (application_date r)
  /\ approval_date (standardize_row parse_datetime texts r)
     = to_datetime_cell parse_datetime (approval_texts texts) (approval_date r)
  /\ disbursement_date (standardize_row parse_datetime texts r)
     = to_datetime_cell parse_datetime (disbursement_texts texts)
         (disbursement_date r).
Proof. repeat split. Qed.

(** What [handle_missing_values] returns has a status in every row. *)
Lemma handle_missing_values_has_status df :
  forallb has_status (fst (handle_missing_values df)) = true.
Proof.
  rewrite handle_missing_values_rows. apply forallb_forall.
  intros r Hr. apply in_map_iff in Hr. destruct Hr as (r0 & <- & Hr0).
  apply filter_In in Hr0. destruct Hr0 as [_ Hcrit].
  apply has_critical_fields_iff in Hcrit. unfold has_status, notnull.
  destruct (fill_row_keeps (median (map credit_score (filter has_critical_fields df))) r0)
    as (_ & _ & _ & -> & _).
  destruct (loan_status r0); [reflexivity | tauto].
Qed.

(** ** The run as a selection of rows *)

Lemma filter_map_swap {A B : Type} (f : A -> B) (g : B -> bool) (l : list A) :
  filter g (map f l) = map f (filter (fun x => g (f x)) l).
Proof.
  induction l as [|x l IH]; simpl; [reflexivity|].
  destruct (g (f x)); simpl; now rewrite IH.
Qed.

Lemma subsequence_trans {A : Type} (l1 l2 l3 : list A) :
  subsequence l1 l2 -> subsequence l2 l3 -> subsequence l1 l3.
Proof.
  intros H12 H23. revert l1 H12.
  induction H23 as [|x l2 l3 H IH|x l2 l3 H IH]; intros l1 H12.
  - exact H12.
  - inversion H12; subst; constructor; auto.
  - constructor. auto.
Qed.


Section CleanRows.

Variable parse_datetime : list string -> string -> option Z.
Variable dtypes : TextDtypes.

(** In a run the stage returns exactly when the [.str] accessors do. *)
Lemma standardize_formats_filled df :
  standardize_formats parse_datetime dtypes (filled_table df)
  = if str_accessors dtypes
    then Some (map (standardize_row parse_datetime
                      (date_texts (filled_table df)))
                   (filled_table df))
    else None.
Proof.
  rewrite standardize_formats_rows. unfold filled_table at 1.
  now rewrite handle_missing_values_has_status, andb_true_r.
Qed.

Lemma clean_returns df :
  clean parse_datetime dtypes df
  = if str_accessors dtypes
    then Some (add_calculated_fields
                 (fst (validate_data_ranges
                         (map (standardize_row parse_datetime
                                 (date_texts (filled_table df)))
                              (filled_table df)))))
    else None.
Proof.
  unfold clean.
  change (fst (handle_missing_values (fst (remove_duplicates df))))
    with (filled_table df).
  rewrite standardize_formats_filled.
  now destruct (str_accessors dtypes).
Qed.

(** The run as one selection followed by one map. *)
Lemma clean_selection df out :
  clean parse_datetime dtypes df = Some out ->
  let m := median (map credit_score
                       (filter has_critical_fields (drop_duplicates df))) in
  out = map (clean_row parse_datetime (date_texts (filled_table df)) m)
            (filter (survives m) (drop_duplicates df)).
Proof.
  intros H m. destruct (clean_stages _ _ _ _ H) as (_ & _ & ->).
  set (texts := date_texts (filled_table df)).
  unfold filled_table.
  change (fst (remove_duplicates df)) with (drop_duplicates df).
  rewrite handle_missing_values_rows. fold m.
  rewrite map_map, filter_map_swap, map_map, filter_filter.
  reflexivity.
Qed.

End CleanRows.




(** ** Keys in the table handed to the writer *)

Lemma distinct_keys_subsequence l l' :
  subsequence l l' -> distinct_keys l' -> distinct_keys l.
Proof.
  unfold distinct_keys. induction 1 as [|x l l' Hsub IH|x l l' Hsub IH]; intro Hd.
  - constructor.
  - inversion Hd as [|? ? Hx Hl']; subst. constructor; [|now apply IH].
    rewrite Forall_forall in *. intros r Hr.
    apply Hx. now apply (subsequence_in l l').
  - inversion Hd; subst. now apply IH.
Qed.

Lemma distinct_keys_map (f : LoanRecord -> LoanRecord) l :
  (forall a b, In a l -> In b l ->
               same_key (f a) (f b) = true -> same_key a b = true) ->
  distinct_keys l -> distinct_keys (map f l).
Proof.
  unfold distinct_keys. intros Hf Hd.
  induction Hd as [|x l Hx Hl IH]; simpl; constructor.
  - rewrite Forall_forall in *. intros r' Hr'.
    apply in_map_iff in Hr'. destruct Hr' as (r & <- & Hr).
    destruct (same_key (f x) (f r)) eqn:E; [|reflexivity].
    rewrite <- (Hx r Hr). symmetry.
    apply Hf; [now left | now right | exact E].
  - apply IH. intros a b Ha Hb. apply Hf; now right.
Qed.

Lemma cell_eqb_date_eq d d' : cell_eqb date_value_eqb d d' = true <-> d = d'.
Proof.
  destruct d as [a|], d' as [b|]; simpl.
  - rewrite date_value_eqb_eq. split; congruence.
  - split; discriminate.
  - split; discriminate.
  - split; reflexivity.
Qed.

Lemma same_key_cells r r' :
  same_key r r' = true <->
  cell_eqb String.eqb (customer_id r) (customer_id r') = true
  /\ cell_eqb Qeq_bool (loan_amount r) (loan_amount r') = true
  /\ application_date r = application_date r'.
Proof.
  unfold same_key, key_of, key_eqb.
  rewrite !andb_true_iff, cell_eqb_date_eq. tauto.
Qed.

(** Rows with the same key cells have the same key. *)
Lemma same_key_ext a b a' b' :
  customer_id a' = customer_id a -> loan_amount a' = loan_amount a ->
  application_date a' = application_date a ->
  customer_id b' = customer_id b -> loan_amount b' = loan_amount b ->
  application_date b' = application_date b ->
  same_key a' b' = same_key a b.
Proof.
  unfold same_key, key_of. now intros -> -> -> -> -> ->.
Qed.

Lemma key_eqb_sym_false k k' : key_eqb k k' = false -> key_eqb k' k = false.
Proof.
  intro H. destruct (key_eqb k' k) eqn:E; [|reflexivity].
  apply key_eqb_sym in E. congruence.
Qed.

(** Two rows of a table whose image has no two rows with one key have
    the same date or images with different keys. *)
Lemma distinct_keys_map_apart (f : LoanRecord -> LoanRecord) l a b :
  distinct_keys (map f l) -> In a l -> In b l ->
  application_date a = application_date b \/ same_key (f a) (f b) = false.
Proof.
  unfold distinct_keys. induction l as [|x l IH]; simpl; [intros _ []|].
  intro Hd. inversion Hd as [|? ? Hx Hl]; subst.
  rewrite Forall_forall in Hx.
  intros [<-|Ha] [<-|Hb].
  - left. reflexivity.
  - right. apply Hx. now apply in_map.
  - right. unfold same_key. apply key_eqb_sym_false.
    apply (Hx (f a)). now apply in_map.
  - now apply IH.
Qed.

(** C1, as stated, fails: the dates are parsed after the duplicates are
    dropped.  Two applications of customer C1 for 12000 dated "pending"
    and "unknown" are different rows for [remove_duplicates]; both dates
    become the absent cell in [standardize_formats], and the table
    handed to the writer holds two rows with one key. *)
Lemma clean_distinct_keys_counterexample :
  exists out,
    clean parse_iso_column (read_csv_dtypes unparsed_dates_sample)
      unparsed_dates_sample = Some out
    /\ map loan_id out = [Some "L1"; Some "L2"]
    /\ map key_of out = [(Some "C1", Some 12000, None); (Some "C1", Some 12000, None)]
    /\ ~ distinct_keys out.
Proof.
  eexists. split; [vm_compute; reflexivity|].
  split; [reflexivity|]. split; [reflexivity|].
  intro Hd. inversion Hd as [|? ? Hx _]; subst.
  inversion Hx as [|? ? Hkey _]; subst.
  vm_compute in Hkey. discriminate.
Qed.

(** C1, amended: the rows of the table handed to the writer are the
    images, in order, of rows of the raw table that have different keys,
    with the customer and the amount of the raw row and the parsed date
    of the raw row; two of them have one key exactly when they come from
    two kept rows with the same customer and amount whose raw dates
    differ and are turned into the same cell by the date step (the same
    timestamp, or both absent).  So no two rows of the table handed to
    the writer share their (customer_id, loan_amount, application_date)
    when the raw table has no two such rows. *)
Theorem clean_distinct_keys
  (parse_datetime : list string -> string -> option Z) (dtypes : TextDtypes)
  (df out : DataFrame) :
  clean parse_datetime dtypes df = Some out ->
  let parsed :=
    to_datetime_cell parse_datetime
      (column_texts (map application_date (filled_table df))) in
  ((forall r r', In r df -> In r' df -> ~ merged_by_parsing parsed r r') ->
   distinct_keys out)
  /\ exists kept,
       subsequence kept df
       /\ distinct_keys kept
       /\ map customer_id out = map customer_id kept
       /\ map loan_amount out = map loan_amount kept
       /\ map application_date out
          = map (fun r => parsed (application_date r)) kept
       /\ (distinct_keys out
           <-> forall r r', In r kept -> In r' kept ->
                            ~ merged_by_parsing parsed r r').
Proof.
  intros Hclean parsed.
  pose proof (clean_selection _ _ _ _ Hclean) as Hout. cbv zeta in Hout.
  set (m := median _) in Hout.
  set (kept := filter (survives m) (drop_duplicates df)) in Hout.
  set (f := clean_row parse_datetime (date_texts (filled_table df)) m) in Hout.
  assert (Hsub : subsequence kept df).
  { apply (subsequence_trans _ (drop_duplicates df));
      [apply subsequence_filter | apply keep_new_subsequence]. }
  assert (Hkept : distinct_keys kept).
  { apply (distinct_keys_subsequence _ (drop_duplicates df));
      [apply subsequence_filter | apply keep_new_distinct]. }
  assert (Hkey : forall a b,
             same_key (f a) (f b) = true
             <-> cell_eqb String.eqb (customer_id a) (customer_id b) = true
                 /\ cell_eqb Qeq_bool (loan_amount a) (loan_amount b) = true
                 /\ parsed (application_date a) = parsed (application_date b)).
  { intros a b. apply same_key_cells. }
  assert (Hiff : distinct_keys out
                 <-> forall r r', In r kept -> In r' kept ->
                                  ~ merged_by_parsing parsed r r').
  { rewrite Hout. split.
    - intros Hd r r' Hr Hr' (Hc & Ha & Hraw & Hparsed).
      destruct (distinct_keys_map_apart f kept r r' Hd Hr Hr') as [E|E];
        [now apply Hraw|].
      assert (E' : same_key (f r) (f r') = true) by (apply Hkey; auto).
      congruence.
    - intro Hnone. apply distinct_keys_map; [|exact Hkept].
      intros a b Ha Hb H. apply Hkey in H. destruct H as (Hc & Hamount & Hp).
      apply same_key_cells. split; [exact Hc|]. split; [exact Hamount|].
      destruct (cell_eqb date_value_eqb (application_date a) (application_date b))
        eqn:E; [now apply cell_eqb_date_eq|].
      exfalso. apply (Hnone a b Ha Hb). repeat split; try assumption.
      intro Heq. apply cell_eqb_date_eq in Heq. congruence. }
  split.
  { intro Hnone. apply Hiff. intros r r' Hr Hr'.
    apply Hnone; now apply (subsequence_in kept df). }
  exists kept. split; [exact Hsub|]. split; [exact Hkept|].
  rewrite Hout, !map_map.
  split; [reflexivity|]. split; [reflexivity|]. split; [reflexivity|].
  rewrite <- Hout. exact Hiff.
Qed.

Lemma clean_distinct_keys_witness :
  exists out,
    clean parse_iso_column (read_csv_dtypes repeated_customer_sample)
      repeated_customer_sample = Some out
    /\ map loan_id out = [Some "L1"; Some "L3"; Some "L4"; Some "L5"]
    /\ distinct_keys out.
Proof.
  eexists. split; [vm_compute; reflexivity|]. split; [reflexivity|].
  refine (proj1 (clean_distinct_keys parse_iso_column
                   (read_csv_dtypes repeated_customer_sample)
                   repeated_customer_sample _ _) _);
    [vm_compute; reflexivity|].
  intros r r' Hr Hr' (Hc & Ha & Hraw & Hparsed).
  simpl in Hr, Hr'.
  destruct Hr as [<-|[<-|[<-|[<-|[<-|[]]]]]];
    destruct Hr' as [<-|[<-|[<-|[<-|[<-|[]]]]]];
    try (apply Hraw; reflexivity);
    try (vm_compute in Hc; discriminate Hc);
    vm_compute in Hparsed; discriminate Hparsed.
Defined.

(** ** Running [clean] on its own result *)

Lemma keep_new_id seen l :
  distinct_keys l ->
  (forall r k, In r l -> In k seen -> key_eqb (key_of r) k = false) ->
  keep_new seen l = l.
Proof.
  intro Hd. revert seen. induction Hd as [|x l Hx Hl IH]; intros seen Hseen.
  - reflexivity.
  - rewrite keep_new_cons.
    assert (E : existsb (key_eqb (key_of x)) seen = false).
    { destruct (existsb (key_eqb (key_of x)) seen) eqn:E; [|reflexivity].
      apply existsb_exists in E. destruct E as (k & Hk & Ek).
      rewrite (Hseen x k) in Ek; [discriminate | now left | exact Hk]. }
    rewrite E. f_equal. apply IH. intros r k Hr [<-|Hk].
    + apply key_eqb_sym_false. rewrite Forall_forall in Hx. now apply Hx.
    + apply Hseen; [now right | exact Hk].
Qed.

Lemma filter_all {A : Type} (f : A -> bool) (l : list A) :
  (forall x, In x l -> f x = true) -> filter f l = l.
Proof.
  intro H. induction l as [|x l IH]; simpl; [reflexivity|].
  rewrite (H x (or_introl eq_refl)). f_equal. apply IH.
  intros y Hy. apply H. now right.
Qed.

Lemma map_fixed {A : Type} (f : A -> A) (l : list A) :
  (forall x, In x l -> f x = x) -> map f l = l.
Proof.
  intro H. induction l as [|x l IH]; simpl; [reflexivity|].
  rewrite (H x (or_introl eq_refl)). f_equal. apply IH.
  intros y Hy. apply H. now right.
Qed.

Section SecondRun.

Variable parse_datetime : list string -> string -> option Z.
Variable dtypes : TextDtypes.

(** What the date step returns is no text, and the date step leaves a
    cell that is no text as it is, whatever its column holds. *)
Lemma to_datetime_parsed texts c :
  parsed_cell (to_datetime_cell parse_datetime texts c).
Proof.
  intro text. destruct c as [[t|t]|]; simpl; try discriminate.
  destruct (parse_datetime texts t); discriminate.
Qed.

Lemma to_datetime_cell_fixed texts c :
  parsed_cell c -> to_datetime_cell parse_datetime texts c = c.
Proof.
  intro H. destruct c as [[text|t]|]; simpl; try reflexivity.
  now destruct (H text).
Qed.

Lemma option_strip_idem c :
  option_map Text.strip (option_map Text.strip c) = option_map Text.strip c.
Proof. destruct c; simpl; [now rewrite TextFacts.strip_idem | reflexivity]. Qed.

Lemma enrich_row_idem r : enrich_row (enrich_row r) = enrich_row r.
Proof. destruct r; reflexivity. Qed.

(** Every row of a cleaned table is a [cleaned_row]. *)
Lemma clean_rows_cleaned df out :
  clean parse_datetime dtypes df = Some out -> Forall cleaned_row out.
Proof.
  intro Hclean. destruct (clean_stages _ _ _ _ Hclean) as (_ & _ & ->).
  set (texts := date_texts (filled_table df)).
  unfold filled_table. rewrite handle_missing_values_rows, map_map.
  set (m := median _).
  apply Forall_forall. intros r Hr.
  apply in_map_iff in Hr. destruct Hr as (r1 & <- & Hr1).
  apply filter_In in Hr1. destruct Hr1 as [Hr1 Hrange].
  apply in_map_iff in Hr1. destruct Hr1 as (r0 & <- & Hr0).
  apply filter_In in Hr0. destruct Hr0 as [_ Hcrit].
  unfold cleaned_row.
  split.
  { rewrite <- Hcrit. destruct r0 as [? ? ? ? ? ? ? ? [s|] ? ? ? ? ? ? ? ? ?];
      reflexivity. }
  split; [exact Hrange|].
  split.
  { destruct (fill_row_cells m r0) as (_ & He & _).
    change (employment_length
              (enrich_row (standardize_row parse_datetime texts (fill_row m r0))))
      with (employment_length (fill_row m r0)).
    rewrite He. destruct (employment_length r0); discriminate. }
  split; [apply option_strip_idem|].
  split; [apply to_datetime_parsed|].
  split; [apply to_datetime_parsed|].
  split; [apply to_datetime_parsed|].
  apply enrich_row_idem.
Qed.

Lemma standardize_row_fixed texts r :
  cleaned_row r -> status_settled r ->
  standardize_row parse_datetime texts r = r.
Proof.
  unfold cleaned_row, status_settled.
  destruct r; simpl. intros (_ & _ & _ & Hp & Ha & Hb & Hc & _) Hs.
  unfold standardize_row, set_loan_status, set_purpose, set_application_date,
    set_approval_date, set_disbursement_date; simpl.
  rewrite !to_datetime_cell_fixed by assumption.
  congruence.
Qed.

Lemma fill_row_fixed m r :
  cleaned_row r -> fill_row m r = r.
Proof.
  intros (_ & Hrange & He & _).
  apply in_range_iff in Hrange. destruct Hrange as (_ & _ & (c & Hc & _) & _).
  destruct r as [? ? ? ? ? ? score emp ? ? ? ? ? ? ? ? ? ?]; simpl in *.
  subst score. destruct emp; [reflexivity | contradiction].
Qed.

(** On a table of cleaned rows with settled statuses and different
    keys, no stage removes a row or changes a cell. *)
Lemma stages_fixed l :
  str_accessors dtypes = true ->
  Forall cleaned_row l -> Forall status_settled l ->
  distinct_keys l ->
  remove_duplicates l = (l, O)
  /\ handle_missing_values l = (l, O)
  /\ standardize_formats parse_datetime dtypes l = Some l
  /\ validate_data_ranges l = (l, O)
  /\ add_calculated_fields l = l.
Proof.
  intros Hstr Hclean Hsettled Hdistinct.
  rewrite Forall_forall in Hclean, Hsettled.
  assert (H1 : drop_duplicates l = l).
  { apply keep_new_id; [exact Hdistinct | intros r k _ []]. }
  assert (Hcrit : filter has_critical_fields l = l).
  { apply filter_all. intros r Hr. apply (Hclean r Hr). }
  assert (H2 : fst (handle_missing_values l) = l).
  { rewrite handle_missing_values_rows, Hcrit. apply map_fixed.
    intros r Hr. apply fill_row_fixed, Hclean, Hr. }
  assert (H3 : standardize_formats parse_datetime dtypes l = Some l).
  { rewrite standardize_formats_rows, Hstr. cbn [andb].
    assert (Hs : forallb has_status l = true).
    { apply forallb_forall. intros r Hr.
      destruct (Hclean r Hr) as (Hc & _).
      apply has_critical_fields_iff in Hc. unfold has_status, notnull.
      destruct (loan_status r); [reflexivity | tauto]. }
    rewrite Hs. f_equal. apply map_fixed. intros r Hr.
    apply standardize_row_fixed; auto. }
  assert (H4 : fst (validate_data_ranges l) = l).
  { rewrite validate_data_ranges_filter. apply filter_all.
    intros r Hr. apply (Hclean r Hr). }
  assert (H5 : add_calculated_fields l = l).
  { rewrite add_calculated_fields_rows. apply map_fixed.
    intros r Hr. apply (Hclean r Hr). }
  split.
  { unfold remove_duplicates. rewrite H1, Nat.sub_diag. reflexivity. }
  split.
  { rewrite (surjective_pairing (handle_missing_values l)), H2.
    f_equal. unfold handle_missing_values. cbn [snd].
    rewrite Hcrit. apply Nat.sub_diag. }
  split; [exact H3|].
  split; [|exact H5].
  rewrite (surjective_pairing (validate_data_ranges l)), H4.
  f_equal. change (snd (validate_data_ranges l))
    with (List.length l - List.length (fst (validate_data_ranges l)))%nat.
  rewrite H4. apply Nat.sub_diag.
Qed.

End SecondRun.

(** C2, as stated, fails, in two ways.  A status " late (31-120 days)"
    is not a key while it carries its space, so the first run title-cases
    and trims it to "Late (31-120 Days)"; in the second run the
    lower-cased text is a key and becomes "Late (31-120 days)".  And two
    rows kept apart by the first run because their unparsed dates differ
    as texts have the same key afterwards, so the second run drops the
    later one. *)
Lemma clean_twice_counterexample :
  (exists out out',
      clean parse_iso_column (read_csv_dtypes padded_status_sample)
        padded_status_sample = Some out
      /\ clean parse_iso_column (read_csv_dtypes padded_status_sample) out
         = Some out'
      /\ map loan_status out = [Some "Late (31-120 Days)"]
      /\ map loan_status out' = [Some "Late (31-120 days)"]
      /\ out' <> out)
  /\ (exists out out',
         clean parse_iso_column (read_csv_dtypes unparsed_dates_sample)
           unparsed_dates_sample = Some out
         /\ clean parse_iso_column (read_csv_dtypes unparsed_dates_sample) out
            = Some out'
         /\ map loan_id out = [Some "L1"; Some "L2"]
         /\ map loan_id out' = [Some "L1"]
         /\ out' <> out).
Proof.
  split.
  - eexists. eexists.
    split; [vm_compute; reflexivity|].
    split; [vm_compute; reflexivity|].
    split; [reflexivity|]. split; [reflexivity|].
    intro H. apply (f_equal (map loan_status)) in H. discriminate H.
  - eexists. eexists.
    split; [vm_compute; reflexivity|].
    split; [vm_compute; reflexivity|].
    split; [reflexivity|]. split; [reflexivity|].
    intro H. apply (f_equal (@List.length LoanRecord)) in H. discriminate H.
Qed.

(** C2, amended: when the table returned by a run has pairwise
    different (customer_id, loan_amount, application_date) keys and
    every loan status in it is left unchanged by the status step, a
    second run returns the same table: each of the five stages removes
    no row and changes no cell. *)
Theorem clean_twice
  (parse_datetime : list string -> string -> option Z) (dtypes : TextDtypes)
  (df out : DataFrame) :
  clean parse_datetime dtypes df = Some out ->
  distinct_keys out ->
  Forall status_settled out ->
  remove_duplicates out = (out, O)
  /\ handle_missing_values out = (out, O)
  /\ standardize_formats parse_datetime dtypes out = Some out
  /\ validate_data_ranges out = (out, O)
  /\ add_calculated_fields out = out
  /\ clean parse_datetime dtypes out = Some out.
Proof.
  intros Hclean Hdistinct Hsettled.
  pose proof (clean_rows_cleaned parse_datetime dtypes df out Hclean) as Hrows.
  destruct (clean_stages _ _ _ _ Hclean) as (Hstr & _ & _).
  destruct (stages_fixed parse_datetime dtypes out Hstr Hrows Hsettled Hdistinct)
    as (H1 & H2 & H3 & H4 & H5).
  repeat (split; [assumption|]).
  unfold clean. rewrite H1. cbn [fst]. rewrite H2. cbn [fst].
  rewrite H3, H4. cbn [fst]. now rewrite H5.
Qed.

Lemma clean_twice_witness :
  exists out,
    clean parse_iso_column (read_csv_dtypes median_sample) median_sample
    = Some out
    /\ map loan_id out = [Some "L1"; Some "L2"; Some "L4"]
    /\ clean parse_iso_column (read_csv_dtypes median_sample) out = Some out.
Proof.
  eexists. split; [vm_compute; reflexivity|]. split; [reflexivity|].
  refine (proj2 (proj2 (proj2 (proj2 (proj2
            (clean_twice parse_iso_column (read_csv_dtypes median_sample)
               median_sample _ _ _ _)))))).
  - vm_compute. reflexivity.
  - repeat constructor.
  - repeat constructor.
Defined.

(** * Further properties of the stages and of the reports *)

(** ** Each stage applied to its own result *)

(** X1: removing duplicates from a table without duplicates removes
    nothing, and the first row of a table is always kept. *)
Theorem remove_duplicates_idempotent (df : DataFrame) :
  remove_duplicates (fst (remove_duplicates df)) = (fst (remove_duplicates df), O)
  /\ hd_error (fst (remove_duplicates df)) = hd_error df.
Proof.
  change (fst (remove_duplicates df)) with (drop_duplicates df).
  split.
  - unfold remove_duplicates.
    assert (H : drop_duplicates (drop_duplicates df) = drop_duplicates df).
    { apply keep_new_id; [apply keep_new_distinct | intros r k _ []]. }
    now rewrite H, Nat.sub_diag.
  - destruct df as [|r df]; [reflexivity|].
    unfold drop_duplicates. rewrite keep_new_cons. reflexivity.
Qed.

Lemma fill_row_twice m m' r :
  (m = None -> m' = None) -> fill_row m' (fill_row m r) = fill_row m r.
Proof.
  intro H. destruct r as [? ? ? ? ? ? [c|] [e|] ? ? ? ? ? ? ? ? ? ?];
    try reflexivity; destruct m as [v|]; try reflexivity;
    rewrite (H eq_refl); reflexivity.
Qed.

Lemma has_critical_fields_fill_row m r :
  has_critical_fields (fill_row m r) = has_critical_fields r.
Proof. reflexivity. Qed.

(** X2: the handler applied to its own result drops no row and fills
    no cell. *)
Theorem handle_missing_values_idempotent (df : DataFrame) :
  handle_missing_values (fst (handle_missing_values df))
  = (fst (handle_missing_values df), O).
Proof.
  set (out := fst (handle_missing_values df)).
  assert (Hout : out = map (fill_row (median (map credit_score
                                                (filter has_critical_fields df))))
                           (filter has_critical_fields df))
    by apply handle_missing_values_rows.
  set (kept := filter has_critical_fields df) in *.
  set (m := median (map credit_score kept)) in *.
  assert (Hcrit : filter has_critical_fields out = out).
  { apply filter_all. intros r Hr. rewrite Hout in Hr.
    apply in_map_iff in Hr. destruct Hr as (r0 & <- & Hr0).
    rewrite has_critical_fields_fill_row.
    apply filter_In in Hr0. apply Hr0. }
  assert (Hfst : fst (handle_missing_values out) = out).
  { rewrite handle_missing_values_rows, Hcrit.
    set (m' := median (map credit_score out)).
    rewrite Hout at 1 2. rewrite map_map. apply map_ext.
    intro r. apply fill_row_twice. intro Hm.
    apply median_none. intros c Hc.
    rewrite Hout, map_map in Hc. apply in_map_iff in Hc.
    destruct Hc as (r0 & <- & Hr0).
    destruct (fill_row_cells m r0) as (-> & _). rewrite Hm.
    destruct (credit_score r0) eqn:E; [|reflexivity].
    apply (proj1 (median_none (map credit_score kept)) Hm).
    rewrite <- E. now apply in_map. }
  rewrite (surjective_pairing (handle_missing_values out)), Hfst. f_equal.
  unfold handle_missing_values. cbn [snd]. rewrite Hcrit. apply Nat.sub_diag.
Qed.

Lemma in_range_enrich_row r : in_range (enrich_row r) = in_range r.
Proof. reflexivity. Qed.

(** X3: the validator applied to its own result removes nothing; the
    derived columns play no part in the range tests, so validating
    before or after [add_calculated_fields] keeps the same rows; and
    computing the derived columns a second time changes nothing. *)
Theorem validate_data_ranges_idempotent (df : DataFrame) :
  validate_data_ranges (fst (validate_data_ranges df))
  = (fst (validate_data_ranges df), O)
  /\ fst (validate_data_ranges (add_calculated_fields df))
     = add_calculated_fields (fst (validate_data_ranges df))
  /\ add_calculated_fields (add_calculated_fields df) = add_calculated_fields df.
Proof.
  split; [|split].
  - assert (H : fst (validate_data_ranges (fst (validate_data_ranges df)))
                = fst (validate_data_ranges df)).
    { rewrite !validate_data_ranges_filter. apply filter_all.
      intros r Hr. apply filter_In in Hr. apply Hr. }
    rewrite (surjective_pairing (validate_data_ranges _)), H. f_equal.
    change (snd (validate_data_ranges (fst (validate_data_ranges df))))
      with (List.length (fst (validate_data_ranges df))
            - List.length (fst (validate_data_ranges (fst (validate_data_ranges df)))))%nat.
    rewrite H. apply Nat.sub_diag.
  - rewrite !validate_data_ranges_filter, !add_calculated_fields_rows.
    rewrite filter_map_swap. f_equal.
  - rewrite !add_calculated_fields_rows, map_map. apply map_ext.
    intro r. apply enrich_row_idem.
Qed.

(** ** The row counts of a run *)

Lemma filter_length_le {A : Type} (f : A -> bool) (l : list A) :
  (List.length (filter f l) <= List.length l)%nat.
Proof. apply subsequence_length, subsequence_filter. Qed.

(** X4: in a run that returns, the three printed removal counts and
    the number of rows of the cleaned table add up to the number of rows
    loaded. *)
Theorem clean_row_accounting
  (parse_datetime : list string -> string -> option Z) (dtypes : TextDtypes)
  (df out : DataFrame) :
  clean parse_datetime dtypes df = Some out ->
  exists standardized,
    standardize_formats parse_datetime dtypes
      (fst (handle_missing_values (fst (remove_duplicates df))))
    = Some standardized
    /\ (snd (remove_duplicates df)
        + snd (handle_missing_values (fst (remove_duplicates df)))
        + snd (validate_data_ranges standardized)
        + List.length out = List.length df)%nat.
Proof.
  intro Hclean.
  destruct (clean_stages _ _ _ _ Hclean) as (Hstr & _ & _).
  rewrite clean_returns, Hstr in Hclean.
  assert (Hout : out = add_calculated_fields
                         (fst (validate_data_ranges
                                 (map (standardize_row parse_datetime
                                         (date_texts (filled_table df)))
                                      (filled_table df)))))
    by congruence.
  rewrite Hout. clear Hclean Hout.
  set (d1 := fst (remove_duplicates df)).
  change (fst (handle_missing_values d1)) with (filled_table df).
  set (d2 := filled_table df).
  set (standardized := map (standardize_row parse_datetime (date_texts d2)) d2).
  exists standardized.
  split.
  { unfold d2. now rewrite standardize_formats_filled, Hstr. }
  rewrite add_calculated_fields_rows, length_map.
  change (snd (remove_duplicates df))
    with (List.length df - List.length d1)%nat.
  change (snd (handle_missing_values d1))
    with (List.length d1 - List.length (filter has_critical_fields d1))%nat.
  change (snd (validate_data_ranges standardized))
    with (List.length standardized
          - List.length (fst (validate_data_ranges standardized)))%nat.
  assert (H1 : (List.length d1 <= List.length df)%nat)
    by apply subsequence_length, keep_new_subsequence.
  assert (H2 : List.length d2 = List.length (filter has_critical_fields d1)).
  { unfold d2, filled_table. fold d1.
    now rewrite handle_missing_values_rows, length_map. }
  pose proof (filter_length_le has_critical_fields d1) as H3.
  rewrite validate_data_ranges_filter.
  pose proof (filter_length_le in_range standardized) as H4.
  unfold standardized in *. rewrite length_map in *. lia.
Qed.

Lemma clean_row_accounting_witness :
  exists out standardized,
    clean parse_iso_column (read_csv_dtypes accounting_sample) accounting_sample
    = Some out
    /\ standardize_formats parse_iso_column (read_csv_dtypes accounting_sample)
         (fst (handle_missing_values (fst (remove_duplicates accounting_sample))))
       = Some standardized
    /\ List.length accounting_sample = 5%nat
    /\ snd (remove_duplicates accounting_sample) = 1%nat
    /\ snd (handle_missing_values (fst (remove_duplicates accounting_sample)))
       = 1%nat
    /\ snd (validate_data_ranges standardized) = 1%nat
    /\ List.length out = 2%nat.
Proof.
  destruct (clean parse_iso_column (read_csv_dtypes accounting_sample)
              accounting_sample) as [out|] eqn:Hclean;
    [|vm_compute in Hclean; discriminate Hclean].
  destruct (clean_row_accounting _ _ _ _ Hclean) as (standardized & Hstd & Hsum).
  exists out, standardized.
  assert (Hout : List.length out = 2%nat).
  { vm_compute in Hclean. injection Hclean as <-. reflexivity. }
  assert (H1 : snd (remove_duplicates accounting_sample) = 1%nat)
    by reflexivity.
  assert (H2 : snd (handle_missing_values
                      (fst (remove_duplicates accounting_sample))) = 1%nat)
    by reflexivity.
  assert (H5 : List.length accounting_sample = 5%nat) by reflexivity.
  split; [reflexivity|]. split; [exact Hstd|]. split; [exact H5|].
  split; [exact H1|]. split; [exact H2|]. split; [|exact Hout].
  rewrite H1, H2, Hout, H5 in Hsum. lia.
Defined.



(** ** The status step applied twice *)

Module CaseFacts.
Import Text TextFacts.

Lemma to_lower_to_upper c : to_lower (to_upper c) = to_lower c.
Proof. by_cases_on_char c. Qed.

Lemma lower_title_from b s : lower (title_from b s) = lower s.
Proof.
  revert b; induction s as [|c s IH]; intro b; simpl; [reflexivity|].
  rewrite IH. destruct b; [now rewrite to_lower_idem | now rewrite to_lower_to_upper].
Qed.

Lemma lower_lstrip s : lower (lstrip s) = lstrip (lower s).
Proof.
  induction s as [|c s IH]; simpl; [reflexivity|].
  rewrite is_space_to_lower. now destruct (is_space c).
Qed.

Lemma lower_rstrip s : lower (rstrip s) = rstrip (lower s).
Proof.
  induction s as [|c s IH]; simpl; [reflexivity|].
  rewrite <- IH, is_space_to_lower.
  destruct (rstrip s); simpl; [now destruct (is_space c) | reflexivity].
Qed.

Lemma lower_strip s : lower (strip s) = strip (lower s).
Proof. unfold strip. now rewrite lower_rstrip, lower_lstrip. Qed.

Lemma lower_idem s : lower (lower s) = lower s.
Proof.
  induction s as [|c s IH]; simpl; [reflexivity|].
  now rewrite to_lower_idem, IH.
Qed.

End CaseFacts.

Lemma standardize_status_fallback s :
  dict_mem status_mapping (Text.lower s) = false ->
  standardize_status s = Text.title (Text.strip (Text.lower s))
  /\ Text.lower (standardize_status s) = Text.strip (Text.lower s).
Proof.
  intro H.
  assert (Hs : standardize_status s = Text.strip (Text.title (Text.lower s))).
  { unfold standardize_status, map_status. now rewrite dict_get_not_mem. }
  rewrite Hs. split.
  - symmetry. apply TextFacts.title_strip.
  - rewrite CaseFacts.lower_strip. unfold Text.title.
    now rewrite CaseFacts.lower_title_from, CaseFacts.lower_idem.
Qed.

(** X6: standardizing a status twice differs from standardizing it once
    exactly when the lower-cased raw text is not a key of the mapping
    but becomes "late (31-120 days)" or "late (16-30 days)" once
    trimmed. *)
Theorem standardize_status_twice (s : string) :
  standardize_status (standardize_status s) <> standardize_status s
  <-> dict_mem status_mapping (Text.lower s) = false
      /\ (Text.strip (Text.lower s) = "late (31-120 days)"
          \/ Text.strip (Text.lower s) = "late (16-30 days)").
Proof.
  destruct (dict_mem status_mapping (Text.lower s)) eqn:Ekey.
  - split; [|intros [H _]; discriminate H].
    intro H. exfalso. apply H. apply standardize_status_settled. now left.
  - destruct (standardize_status_fallback s Ekey) as [Hs Hl].
    destruct (dict_mem status_mapping (Text.strip (Text.lower s))) eqn:Ek2.
    + apply dict_mem_in in Ek2. simpl in Ek2.
      destruct Ek2 as [E|[E|[E|[E|[E|[]]]]]]; rewrite Hs, <- E.
      * split; [intro H; exfalso; apply H; reflexivity|].
        intros [_ [H|H]]; discriminate H.
      * split; [intro H; exfalso; apply H; reflexivity|].
        intros [_ [H|H]]; discriminate H.
      * split; [intro H; exfalso; apply H; reflexivity|].
        intros [_ [H|H]]; discriminate H.
      * split; [intros _; split; [reflexivity | now left] | intros _; discriminate].
      * split; [intros _; split; [reflexivity | now right] | intros _; discriminate].
    + split.
      * intro H. exfalso. apply H. apply standardize_status_settled.
        right. now rewrite Hl.
      * intros [_ [E|E]]; rewrite E in Ek2; discriminate.
Qed.

Lemma standardize_status_twice_witness :
  standardize_status (standardize_status " late (31-120 days)")
  <> standardize_status " late (31-120 days)".
Proof.
  apply (proj2 (standardize_status_twice " late (31-120 days)")).
  split; [reflexivity | left; reflexivity].
Defined.

(** ** What [standardize_formats] raises on *)

Lemma forallb_has_status_false df :
  forallb has_status df = false <-> exists r, In r df /\ loan_status r = None.
Proof.
  induction df as [|r df IH]; simpl.
  - split; [discriminate | intros (r & [] & _)].
  - rewrite andb_false_iff, IH. unfold has_status, notnull. split.
    + intros [H|(r' & Hr' & Hs)].
      * exists r. split; [now left|]. now destruct (loan_status r).
      * exists r'. split; [now right | exact Hs].
    + intros (r' & [<-|Hr'] & Hs).
      * left. now rewrite Hs.
      * right. now exists r'.
Qed.

(** X7: [standardize_formats] raises exactly when the loan status
    column or the purpose column is no text column (from the [.str]
    accessor) or some row has no loan status (from [x.title()]); when it
    returns, it returns as many rows as it got, with the identifiers and
    the numeric columns unchanged. *)
Theorem standardize_formats_raises_iff
  (parse_datetime : list string -> string -> option Z) (dtypes : TextDtypes)
  (df : DataFrame) :
  (standardize_formats parse_datetime dtypes df = None
   <-> loan_status_dtype dtypes = Float64Dtype
       \/ purpose_dtype dtypes = Float64Dtype
       \/ exists r, In r df /\ loan_status r = None)
  /\ (forall out,
         standardize_formats parse_datetime dtypes df = Some out ->
         List.length out = List.length df
         /\ map loan_id out = map loan_id df
         /\ map customer_id out = map customer_id df
         /\ map loan_amount out = map loan_amount df
         /\ map credit_score out = map credit_score df
         /\ map interest_rate out = map interest_rate df
         /\ map annual_income out = map annual_income df).
Proof.
  rewrite standardize_formats_rows. unfold str_accessors.
  destruct (loan_status_dtype dtypes);
    [|split; [split; [now left | reflexivity] | intros out [=]]].
  destruct (purpose_dtype dtypes);
    [|split; [split; [now (right; left) | reflexivity] | intros out [=]]].
  cbn [is_object andb].
  destruct (forallb has_status df) eqn:E; split.
  - split; [discriminate|]. intros [H|[H|H]]; try discriminate H.
    apply forallb_has_status_false in H. congruence.
  - intros out [= <-]. rewrite length_map, !map_map. repeat split.
  - split; [intros _; right; right; now apply forallb_has_status_false
           | reflexivity].
  - intros out [=].
Qed.

Lemma standardize_formats_raises_iff_witness :
  read_csv_dtypes statusless_row_sample = text_columns
  /\ standardize_formats parse_iso_column (read_csv_dtypes statusless_row_sample)
       statusless_row_sample
     = None.
Proof.
  split; [reflexivity|].
  apply (proj1 (standardize_formats_raises_iff parse_iso_column _ _)).
  right. right. eexists. split; [right; left; reflexivity | reflexivity].
Defined.

(** ** The median fill and the range of the scores *)

Lemma sort_values_in l y : In y (sort_values l) -> In y l.
Proof.
  revert y; induction l as [|x l IH]; intros y; simpl; [auto|].
  intro H. apply insert_sorted_in in H. destruct H as [->|H]; auto.
Qed.

Lemma dropna_values_in col v : In v (dropna_values col) -> In (Some v) col.
Proof.
  induction col as [|[w|] col IH]; simpl; [auto| |auto].
  intros [->|H]; auto.
Qed.

(** The median lies in every set that holds the values and the midpoint
    of any two of its elements. *)
Lemma median_convex (P : Q -> Prop) col m :
  (forall a b, P a -> P b -> P ((a + b) / 2)) ->
  (forall v, In (Some v) col -> P v) ->
  median col = Some m -> P m.
Proof.
  unfold median. intros Hmid Hcol Hm.
  set (s := sort_values (dropna_values col)) in *.
  assert (Hnth : forall i, (i < List.length s)%nat -> P (nth i s 0)).
  { intros i Hi. apply Hcol, dropna_values_in, sort_values_in. now apply nth_In. }
  pose proof (half_of_odd (List.length s)) as Hodd.
  pose proof (half_of_even (List.length s)) as Heven.
  destruct (List.length s) as [|k] eqn:En; [discriminate|].
  rewrite <- En in *.
  remember (List.length s / 2)%nat as h eqn:Eh. clear Eh.
  destruct (Nat.odd (List.length s)); injection Hm as <-.
  - specialize (Hodd eq_refl). apply Hnth. lia.
  - specialize (Heven eq_refl). apply Hmid; apply Hnth; lia.
Qed.

Lemma median_in_bounds col m lo hi :
  median col = Some m ->
  (forall v, In (Some v) col -> lo <= v /\ v <= hi) ->
  lo <= m /\ m <= hi.
Proof.
  intros Hm Hcol.
  apply (median_convex (fun v => lo <= v /\ v <= hi) col m); [|exact Hcol|exact Hm].
  intros a b [Ha1 Ha2] [Hb1 Hb2].
  assert (E : (a + b) / 2 == (1 # 2) * a + (1 # 2) * b) by field.
  rewrite E. split; lra.
Qed.

(** X8: a fill never takes a credit score out of the range of the
    scores that are there: bounds that hold for every present score of
    the table hold for every score of the handler's result. *)
Theorem handle_missing_values_keeps_score_bounds (df : DataFrame) (lo hi : Q) :
  (forall r c, In r df -> credit_score r = Some c -> lo <= c /\ c <= hi) ->
  forall r c,
    In r (fst (handle_missing_values df)) -> credit_score r = Some c ->
    lo <= c /\ c <= hi.
Proof.
  intros Hdf r c Hr Hc.
  rewrite handle_missing_values_rows in Hr.
  set (kept := filter has_critical_fields df) in *.
  apply in_map_iff in Hr. destruct Hr as (r0 & <- & Hr0).
  destruct (fill_row_cells (median (map credit_score kept)) r0) as (Hscore & _).
  rewrite Hscore in Hc.
  assert (Hr0' : In r0 df) by (apply filter_In in Hr0; apply Hr0).
  destruct (credit_score r0) as [c0|] eqn:E0.
  - injection Hc as <-. now apply (Hdf r0).
  - apply (median_in_bounds (map credit_score kept) c lo hi Hc).
    intros v Hv. apply in_map_iff in Hv. destruct Hv as (r1 & Hv & Hr1).
    apply filter_In in Hr1. apply (Hdf r1); [apply Hr1 | exact Hv].
Qed.

Lemma handle_missing_values_keeps_score_bounds_witness :
  640 <= (640 + 700) / 2 /\ (640 + 700) / 2 <= 800.
Proof.
  apply (handle_missing_values_keeps_score_bounds median_sample 640 800)
    with (r := fill_row (Some ((640 + 700) / 2))
                 (set_employment_length None
                    (raw_row "L2" "C2" 8000 40000 300 9 24 None (Some "current")
                       (Some "2023-01-06")))).
  - intros r c Hr Hc. simpl in Hr.
    destruct Hr as [<-|[<-|[<-|[<-|[]]]]]; simpl in Hc;
      try discriminate Hc; injection Hc as <-; split; discriminate.
  - vm_compute. right. left. reflexivity.
  - reflexivity.
Defined.

(** ** Values outside the bins *)

Lemma cut_loan_category_none c :
  cut c loan_category_bins loan_category_labels = None
  <-> c = None \/ exists a, c = Some a /\ a <= 0.
Proof.
  destruct c as [a|]; [|split; [now left | reflexivity]].
  destruct (cut_loan_category a) as (Hout & Hs & Hm & Hl).
  split.
  - intro H. right. exists a. split; [reflexivity|].
    destruct (Qlt_le_dec 0 a) as [Hpos|Hnon]; [exfalso | exact Hnon].
    destruct (Qlt_le_dec 10000 a) as [H1|H1];
      [destruct (Qlt_le_dec 25000 a) as [H2|H2]|].
    + rewrite Hl in H by assumption. discriminate.
    + rewrite Hm in H by assumption. discriminate.
    + rewrite Hs in H by assumption. discriminate.
  - intros [H|(a' & [= <-] & Ha)]; [discriminate | now apply Hout].
Qed.

Lemma cut_credit_band_none c :
  cut c credit_band_bins credit_band_labels = None
  <-> c = None \/ exists s, c = Some s /\ (s <= 0 \/ 850 < s).
Proof.
  destruct c as [s|]; [|split; [now left | reflexivity]].
  destruct (cut_credit_band s) as (Hlow & Hvp & Hp & Hf & Hg & He & Hhigh).
  split.
  - intro H. right. exists s. split; [reflexivity|].
    destruct (Qlt_le_dec 0 s) as [Hpos|Hnon]; [|now left].
    destruct (Qlt_le_dec 850 s) as [H5|H5]; [now right | exfalso].
    destruct (Qlt_le_dec 600 s) as [H1|H1];
      [destruct (Qlt_le_dec 650 s) as [H2|H2];
       [destruct (Qlt_le_dec 700 s) as [H3|H3];
        [destruct (Qlt_le_dec 750 s) as [H4|H4]|]|]|].
    + rewrite He in H by assumption. discriminate.
    + rewrite Hg in H by assumption. discriminate.
    + rewrite Hf in H by assumption. discriminate.
    + rewrite Hp in H by assumption. discriminate.
    + rewrite Hvp in H by assumption. discriminate.
  - intros [H|(s' & [= <-] & [Hs|Hs])]; [discriminate | now apply Hlow | now apply Hhigh].
Qed.

(** X9: outside the bins no label is given: [loan_category] is absent
    exactly when the loan amount is absent or not above 0, and
    [credit_band] exactly when the credit score is absent, not above 0,
    or above 850. *)
Theorem add_calculated_fields_unlabelled (df : DataFrame) (r : LoanRecord) :
  In r (add_calculated_fields df) ->
  (loan_category r = None
   <-> loan_amount r = None \/ exists a, loan_amount r = Some a /\ a <= 0)
  /\ (credit_band r = None
      <-> credit_score r = None
          \/ exists s, credit_score r = Some s /\ (s <= 0 \/ 850 < s)).
Proof.
  rewrite add_calculated_fields_rows. intro Hr.
  apply in_map_iff in Hr. destruct Hr as (r0 & <- & _).
  destruct (enrich_row_derived r0) as (_ & _ & -> & ->).
  destruct (enrich_row_sources r0) as (_ & _ & -> & _ & _ & -> & _).
  split; [apply cut_loan_category_none | apply cut_credit_band_none].
Qed.

Lemma add_calculated_fields_unlabelled_witness :
  loan_category
    (enrich_row
       (raw_row "L1" "C1" 0 60000 500 7 36 (Some 900) (Some "current")
          (Some "2023-01-05")))
  = None.
Proof.
  apply (proj1 (add_calculated_fields_unlabelled
                  [ raw_row "L1" "C1" 0 60000 500 7 36 (Some 900)
                      (Some "current") (Some "2023-01-05") ]
                  _ (or_introl eq_refl))).
  right. exists 0. split; [reflexivity | discriminate].
Defined.

(** ** Rounding keeps the order *)

Lemma Qfloor_unique x f :
  inject_Z f <= x -> x < inject_Z (f + 1) -> Qfloor x = f.
Proof.
  intros Hlo Hhi.
  pose proof (Qfloor_le x) as H1. pose proof (Qlt_floor x) as H2.
  rewrite inject_Z_plus in Hhi, H2. change (inject_Z 1) with 1 in Hhi, H2.
  assert (A : (f < Qfloor x + 1)%Z).
  { rewrite Zlt_Qlt, inject_Z_plus. change (inject_Z 1) with 1. lra. }
  assert (B : (Qfloor x < f + 1)%Z).
  { rewrite Zlt_Qlt, inject_Z_plus. change (inject_Z 1) with 1. lra. }
  lia.
Qed.

(** The nearest integer is the only integer closer than one half. *)
Lemma rint_unique x z : Qabs (inject_Z z - x) < 1 # 2 -> rint x = z.
Proof.
  intro Hz. pose proof (rint_close x) as Hr.
  apply Qabs_Qlt_condition in Hz. apply Qabs_Qle_condition in Hr.
  assert (A : (rint x < z + 1)%Z).
  { rewrite Zlt_Qlt, inject_Z_plus. change (inject_Z 1) with 1. lra. }
  assert (B : (z < rint x + 1)%Z).
  { rewrite Zlt_Qlt, inject_Z_plus. change (inject_Z 1) with 1. lra. }
  lia.
Qed.

(** On a tie the even neighbour is taken. *)
Lemma rint_tie x f :
  x == inject_Z f + (1 # 2) -> rint x = if Z.even f then f else (f + 1)%Z.
Proof.
  intro Hx.
  assert (Hf : Qfloor x = f).
  { apply Qfloor_unique; rewrite ?inject_Z_plus; change (inject_Z 1) with 1; lra. }
  unfold rint. rewrite Hf.
  assert (E1 : Qltb (2 * (x - inject_Z f)) 1 = false) by (apply Qltb_ge; lra).
  assert (E2 : Qltb 1 (2 * (x - inject_Z f)) = false) by (apply Qltb_ge; lra).
  now rewrite E1, E2.
Qed.

Lemma rint_monotone x y : x <= y -> (rint x <= rint y)%Z.
Proof.
  intro Hxy.
  pose proof (rint_close x) as Hx. pose proof (rint_close y) as Hy.
  apply Qabs_Qle_condition in Hx. apply Qabs_Qle_condition in Hy.
  destruct (Z_le_gt_dec (rint x) (rint y)) as [H|H]; [exact H | exfalso].
  assert (Hgap : inject_Z (rint y) + 1 <= inject_Z (rint x)).
  { change 1 with (inject_Z 1). rewrite <- inject_Z_plus, <- Zle_Qle. lia. }
  assert (Ex : x == inject_Z (rint y) + (1 # 2)) by lra.
  assert (Ey : y == inject_Z (rint y) + (1 # 2)) by lra.
  pose proof (rint_tie x (rint y) Ex) as Tx.
  pose proof (rint_tie y (rint y) Ey) as Ty.
  destruct (Z.even (rint y)); lia.
Qed.

Lemma round_to_monotone d x y : x <= y -> round_to d x <= round_to d y.
Proof.
  intro Hxy. pose proof (pow10_pos d) as Hp. unfold round_to, Qdiv.
  apply Qmult_le_compat_r; [|apply Qlt_le_weak, Qinv_lt_0_compat, Hp].
  rewrite <- Zle_Qle. apply rint_monotone.
  apply Qmult_le_compat_r; [exact Hxy | lra].
Qed.

Lemma round_to_fixed d x k : x * pow10 d == inject_Z k -> round_to d x == x.
Proof.
  intro Hk. pose proof (pow10_pos d) as Hp.
  assert (Hr : rint (x * pow10 d) = k).
  { apply rint_unique. apply Qabs_Qlt_condition. lra. }
  unfold round_to. rewrite Hr, <- Hk. field. lra.
Qed.

Lemma round_to_idempotent d x : round_to d (round_to d x) == round_to d x.
Proof. apply (round_to_fixed d _ (rint (x * pow10 d))), round_to_grid. Qed.

(** X10: rounding to [d] decimals is monotone, leaves a value that
    already has [d] decimals as it is, and is idempotent; so
    [loan_to_income] is never negative on validated rows, and
    [total_interest] is never negative when the payments cover the
    principal and never positive when they do not. *)
Theorem round_to_keeps_order :
  (forall d x y, x <= y -> round_to d x <= round_to d y)
  /\ (forall d x, round_to d (round_to d x) == round_to d x)
  /\ (forall d x k, x * pow10 d == inject_Z k -> round_to d x == x)
  /\ (forall df r v,
         In r (add_calculated_fields (fst (validate_data_ranges df))) ->
         loan_to_income r = Some v -> 0 <= v)
  /\ (forall df r p t a v,
         In r (add_calculated_fields df) ->
         monthly_payment r = Some p -> loan_term r = Some t ->
         loan_amount r = Some a -> total_interest r = Some v ->
         (a <= p * t -> 0 <= v) /\ (p * t <= a -> v <= 0)).
Proof.
  split; [exact round_to_monotone|].
  split; [exact round_to_idempotent|].
  split; [exact round_to_fixed|].
  assert (Hzero : forall d, round_to d 0 == 0).
  { intro d. apply (round_to_fixed d 0 0). change (inject_Z 0) with 0. ring. }
  split.
  - intros df r v Hr Hv. rewrite add_calculated_fields_rows in Hr.
    apply in_map_iff in Hr. destruct Hr as (r0 & <- & Hr0).
    apply validate_data_ranges_in in Hr0.
    destruct Hr0 as (_ & (a & Ha & Hapos) & _ & _ & (n & Hn & Hnpos)).
    destruct (enrich_row_derived r0) as (Hratio & _).
    rewrite Hratio, Ha, Hn, (cell_div_positive a n Hnpos) in Hv.
    injection Hv as <-. rewrite <- (Hzero 4%nat).
    apply round_to_monotone. apply Qlt_le_weak.
    unfold Qdiv. apply Qmult_lt_0_compat; [exact Hapos|].
    now apply Qinv_lt_0_compat.
  - intros df r p t a v Hr Hp Ht Ha Hv. rewrite add_calculated_fields_rows in Hr.
    apply in_map_iff in Hr. destruct Hr as (r0 & <- & _).
    destruct (enrich_row_derived r0) as (_ & Hinterest & _).
    assert (Hp0 : monthly_payment r0 = Some p) by exact Hp.
    assert (Ht0 : loan_term r0 = Some t) by exact Ht.
    assert (Ha0 : loan_amount r0 = Some a) by exact Ha.
    rewrite Hinterest, Hp0, Ht0, Ha0 in Hv. simpl in Hv. injection Hv as <-.
    split; intro H; rewrite <- (Hzero 2%nat); apply round_to_monotone; lra.
Qed.

Lemma round_to_keeps_order_witness :
  round_to 4 (1 / 3) <= round_to 4 (1 / 2).
Proof.
  apply (proj1 round_to_keeps_order). discriminate.
Defined.

(** ** The table handed to the writer *)

Lemma strip_standardize_status s :
  Text.strip (standardize_status s) = standardize_status s.
Proof. unfold standardize_status. apply TextFacts.strip_idem. Qed.

(** X11: in every row of the cleaned table the loan id, customer id,
    loan amount, loan status and employment length are present, status
    and purpose carry no whitespace at either end, no date cell is
    still a text, [loan_to_income] is present, and the four ranges
    hold. *)
Theorem clean_writer_rows
  (parse_datetime : list string -> string -> option Z) (dtypes : TextDtypes)
  (df out : DataFrame) :
  clean parse_datetime dtypes df = Some out -> Forall writer_row out.
Proof.
  intro Hclean. rewrite (clean_selection _ _ _ _ Hclean).
  set (texts := date_texts (filled_table df)).
  set (m := median _).
  apply Forall_forall. intros r Hr.
  apply in_map_iff in Hr. destruct Hr as (r0 & <- & Hr0).
  apply filter_In in Hr0. destruct Hr0 as [_ Hsurv].
  apply andb_true_iff in Hsurv. destruct Hsurv as [Hcrit Hrange].
  apply has_critical_fields_iff in Hcrit. destruct Hcrit as (Hid & Hcust & Ham & Hst).
  apply in_range_iff in Hrange.
  change (satisfies_ranges (fill_row m r0))
    with (satisfies_ranges
            (standardize_row parse_datetime texts (fill_row m r0))) in Hrange.
  destruct (standardize_row_cells parse_datetime texts (fill_row m r0))
    as (_ & _ & Hstatus & Hpurpose & Hd1 & Hd2 & Hd3).
  unfold writer_row, clean_row.
  split; [exact Hid|]. split; [exact Hcust|]. split; [exact Ham|].
  split.
  { change (loan_status (enrich_row (standardize_row parse_datetime texts (fill_row m r0))))
      with (option_map standardize_status (loan_status r0)).
    destruct (loan_status r0); [discriminate | tauto]. }
  split.
  { change (employment_length (enrich_row (standardize_row parse_datetime texts (fill_row m r0))))
      with (employment_length (fill_row m r0)).
    destruct (fill_row_cells m r0) as (_ & -> & _).
    destruct (employment_length r0); discriminate. }
  split.
  { change (loan_status (enrich_row (standardize_row parse_datetime texts (fill_row m r0))))
      with (option_map standardize_status (loan_status r0)).
    intros s Hs. destruct (loan_status r0); [|discriminate].
    injection Hs as <-. apply strip_standardize_status. }
  split.
  { change (purpose (enrich_row (standardize_row parse_datetime texts (fill_row m r0))))
      with (option_map Text.strip (purpose r0)).
    intros s Hs. destruct (purpose r0); [|discriminate].
    injection Hs as <-. apply TextFacts.strip_idem. }
  split; [apply to_datetime_parsed|].
  split; [apply to_datetime_parsed|].
  split; [apply to_datetime_parsed|].
  split; [|exact Hrange].
  destruct Hrange as ((a & Ha & _) & _ & _ & (n & Hn & Hnpos)).
  destruct (enrich_row_derived
              (standardize_row parse_datetime texts (fill_row m r0)))
    as (-> & _).
  rewrite Ha, Hn, (cell_div_positive a n Hnpos). discriminate.
Qed.

Lemma clean_writer_rows_witness :
  exists out,
    clean parse_iso_column (read_csv_dtypes status_sample) status_sample
    = Some out
    /\ Forall writer_row out.
Proof.
  eexists. split; [vm_compute; reflexivity|].
  apply (clean_writer_rows parse_iso_column (read_csv_dtypes status_sample)
           status_sample).
  vm_compute. reflexivity.
Defined.

(** ** [check_data_quality] and the removal counts *)

Lemma row_eqb_same_key r r' : row_eqb r r' = true -> same_key r r' = true.
Proof.
  unfold row_eqb, same_key, key_of, key_eqb. rewrite !andb_true_iff. tauto.
Qed.

Lemma duplicated_from_length seen df :
  List.length (duplicated_from seen df) = List.length df.
Proof.
  revert seen; induction df as [|r df IH]; intro seen; simpl; [reflexivity|].
  now rewrite IH.
Qed.

Lemma keep_new_length seen df :
  (List.length (keep_new seen df) + mask_sum (duplicated_from seen df)
   = List.length df)%nat.
Proof.
  revert seen; induction df as [|r df IH]; intro seen; [reflexivity|].
  rewrite keep_new_cons. cbn [duplicated_from]. unfold mask_sum in *. cbn [filter].
  specialize (IH (key_of r :: seen)).
  destruct (existsb (key_eqb (key_of r)) seen); simpl; lia.
Qed.

(** The printed count of [remove_duplicates] is the number of marked rows. *)
Lemma remove_duplicates_count df :
  snd (remove_duplicates df) = mask_sum (duplicated df).
Proof.
  unfold remove_duplicates, drop_duplicates, duplicated. cbn [snd].
  pose proof (keep_new_length [] df). lia.
Qed.

Lemma duplicated_rows_le seen_rows seen_keys df :
  (forall x, In x seen_rows -> In (key_of x) seen_keys) ->
  (mask_sum (duplicated_rows_from seen_rows df)
   <= mask_sum (duplicated_from seen_keys df))%nat.
Proof.
  revert seen_rows seen_keys.
  induction df as [|r df IH]; intros seen_rows seen_keys Hseen; [apply Nat.le_refl|].
  cbn [duplicated_rows_from duplicated_from]. unfold mask_sum in *. cbn [filter].
  assert (Hnext : forall x, In x (r :: seen_rows) ->
                            In (key_of x) (key_of r :: seen_keys)).
  { intros x [<-|Hx]; [now left | right; auto]. }
  specialize (IH _ _ Hnext).
  destruct (existsb (row_eqb r) seen_rows) eqn:Er.
  - assert (Ek : existsb (key_eqb (key_of r)) seen_keys = true).
    { apply existsb_exists in Er. destruct Er as (x & Hx & Hrx).
      apply existsb_exists. exists (key_of x). split; [auto|].
      now apply row_eqb_same_key in Hrx. }
    rewrite Ek. simpl. lia.
  - destruct (existsb (key_eqb (key_of r)) seen_keys); simpl; lia.
Qed.

(** X12: the duplicates announced by the quality report (rows equal to
    an earlier row in every column) are never more than the rows
    [remove_duplicates] drops (rows equal to an earlier row in the three
    key columns), and can be fewer; the rows kept and dropped add up to
    the rows reported. *)
Theorem check_data_quality_duplicates (df : DataFrame) :
  (quality_duplicates (check_data_quality df) <= snd (remove_duplicates df))%nat
  /\ (snd (remove_duplicates df) = O ->
      quality_duplicates (check_data_quality df) = O)
  /\ quality_records (check_data_quality df)
     = (List.length (fst (remove_duplicates df)) + snd (remove_duplicates df))%nat
  /\ quality_duplicates (check_data_quality half_duplicate_sample) = 1%nat
  /\ snd (remove_duplicates half_duplicate_sample) = 2%nat.
Proof.
  assert (H : (quality_duplicates (check_data_quality df)
               <= snd (remove_duplicates df))%nat).
  { rewrite remove_duplicates_count. apply duplicated_rows_le. intros x []. }
  split; [exact H|]. split; [lia|].
  split; [|split; reflexivity].
  rewrite remove_duplicates_count. cbn [check_data_quality quality_records].
  change (fst (remove_duplicates df)) with (keep_new [] df).
  pose proof (keep_new_length [] df). unfold duplicated. lia.
Qed.

Lemma check_data_quality_duplicates_witness :
  quality_duplicates (check_data_quality status_sample) = O.
Proof.
  apply (proj1 (proj2 (check_data_quality_duplicates status_sample))).
  reflexivity.
Defined.

Lemma isnull_sum_cons {A : Type} (c : option A) col :
  isnull_sum (c :: col) = ((if isnull c then 1 else 0) + isnull_sum col)%nat.
Proof. unfold isnull_sum. simpl. now destruct (isnull c). Qed.

(** X13: the number of rows the handler drops is at least each of the
    missing counts that the quality report of the same table gives for
    loan id, customer id, loan amount and loan status, and at most their
    sum. *)
Theorem handle_missing_values_count_bounds (df : DataFrame) :
  let missing := quality_missing (check_data_quality df) in
  let removed := snd (handle_missing_values df) in
  (missing_of "loan_id" missing <= removed)%nat
  /\ (missing_of "customer_id" missing <= removed)%nat
  /\ (missing_of "loan_amount" missing <= removed)%nat
  /\ (missing_of "loan_status" missing <= removed)%nat
  /\ (removed <= missing_of "loan_id" missing + missing_of "customer_id" missing
                 + missing_of "loan_amount" missing
                 + missing_of "loan_status" missing)%nat.
Proof.
  cbn zeta.
  change (snd (handle_missing_values df))
    with (List.length df - List.length (filter has_critical_fields df))%nat.
  change (missing_of "loan_id" (quality_missing (check_data_quality df)))
    with (isnull_sum (map loan_id df)).
  change (missing_of "customer_id" (quality_missing (check_data_quality df)))
    with (isnull_sum (map customer_id df)).
  change (missing_of "loan_amount" (quality_missing (check_data_quality df)))
    with (isnull_sum (map loan_amount df)).
  change (missing_of "loan_status" (quality_missing (check_data_quality df)))
    with (isnull_sum (map loan_status df)).
  induction df as [|r df IH]; [unfold isnull_sum; simpl; repeat split; lia|].
  cbn [map filter List.length]. rewrite !isnull_sum_cons.
  pose proof (filter_length_le has_critical_fields df) as Hle.
  destruct (has_critical_fields r) eqn:E; cbn [List.length];
    unfold has_critical_fields, notnull in E;
    destruct (loan_id r), (customer_id r), (loan_amount r), (loan_status r);
    simpl in E; try discriminate E; cbn [isnull]; lia.
Qed.

(** ** [generate_summary_statistics] *)

Lemma inject_length_succ {A : Type} (x : A) (l : list A) :
  inject_Z (Z.of_nat (List.length (x :: l)))
  == inject_Z (Z.of_nat (List.length l)) + 1.
Proof.
  cbn [List.length]. rewrite Nat2Z.inj_succ, <- Z.add_1_r, inject_Z_plus.
  reflexivity.
Qed.

Lemma inject_length_nonneg {A : Type} (l : list A) :
  0 <= inject_Z (Z.of_nat (List.length l)).
Proof. change 0 with (inject_Z 0). rewrite <- Zle_Qle. lia. Qed.

Lemma sum_values_bounds l lo hi :
  (forall v, In v l -> lo <= v /\ v <= hi) ->
  lo * inject_Z (Z.of_nat (List.length l)) <= sum_values l
  /\ sum_values l <= hi * inject_Z (Z.of_nat (List.length l)).
Proof.
  induction l as [|x l IH]; intro H.
  - change (lo * 0 <= 0 /\ 0 <= hi * 0). split; lra.
  - rewrite inject_length_succ. cbn [sum_values fold_right].
    fold (sum_values l).
    destruct (H x (or_introl eq_refl)) as [Hlo Hhi].
    destruct IH as [IHlo IHhi]; [intros v Hv; apply H; now right|].
    split; lra.
Qed.

Lemma sum_values_positive l :
  l <> [] -> (forall v, In v l -> 0 < v) -> 0 < sum_values l.
Proof.
  induction l as [|x l IH]; intros Hne H; [congruence|].
  cbn [sum_values fold_right]. fold (sum_values l).
  pose proof (H x (or_introl eq_refl)) as Hx.
  destruct l as [|y l]; [simpl; lra|].
  assert (0 < sum_values (y :: l)).
  { apply IH; [discriminate | intros v Hv; apply H; now right]. }
  lra.
Qed.

Lemma mean_some col :
  dropna_values col <> [] ->
  exists vs,
    dropna_values col = vs
    /\ 0 < inject_Z (Z.of_nat (List.length vs))
    /\ mean col = Some (sum_values vs / inject_Z (Z.of_nat (List.length vs))).
Proof.
  intro H. exists (dropna_values col). split; [reflexivity|].
  unfold mean. destruct (dropna_values col) as [|v vs]; [congruence|].
  split; [|reflexivity].
  rewrite inject_length_succ. pose proof (inject_length_nonneg vs). lra.
Qed.

Lemma mean_in_bounds col m lo hi :
  mean col = Some m ->
  (forall v, In (Some v) col -> lo <= v /\ v <= hi) ->
  lo <= m /\ m <= hi.
Proof.
  intros Hm Hcol.
  destruct (dropna_values col) as [|v0 vs0] eqn:E;
    [unfold mean in Hm; rewrite E in Hm; discriminate|].
  destruct (mean_some col) as (vs & Hvs & Hn & Hmean); [congruence|].
  rewrite Hmean in Hm. injection Hm as <-.
  destruct (sum_values_bounds vs lo hi) as [Hlo Hhi].
  { intros v Hv. apply Hcol, dropna_values_in. now rewrite Hvs. }
  split.
  - apply Qle_shift_div_l; assumption.
  - apply Qle_shift_div_r; assumption.
Qed.

Lemma mean_positive col m :
  mean col = Some m -> (forall v, In (Some v) col -> 0 < v) -> 0 < m.
Proof.
  intros Hm Hcol.
  destruct (dropna_values col) as [|v0 vs0] eqn:E;
    [unfold mean in Hm; rewrite E in Hm; discriminate|].
  destruct (mean_some col) as (vs & Hvs & Hn & Hmean); [congruence|].
  rewrite Hmean in Hm. injection Hm as <-.
  apply Qlt_shift_div_l; [exact Hn|]. rewrite Qmult_0_l.
  apply sum_values_positive; [congruence|].
  intros v Hv. apply Hcol, dropna_values_in. now rewrite Hvs.
Qed.

Lemma present_in {A : Type} (col : list (option A)) v :
  In v (present col) <-> In (Some v) col.
Proof.
  induction col as [|[w|] col IH]; simpl.
  - tauto.
  - rewrite IH. split; intros [H|H]; auto; left; congruence.
  - rewrite IH. split; [auto | intros [H|H]; [discriminate | exact H]].
Qed.

Lemma present_length {A : Type} (col : list (option A)) :
  (List.length (present col) + isnull_sum col = List.length col)%nat.
Proof.
  induction col as [|[w|] col IH]; [reflexivity| |];
    rewrite isnull_sum_cons; simpl; lia.
Qed.

Lemma unique_in l v : In v (unique l) <-> In v l.
Proof.
  induction l as [|x l IH]; simpl; [tauto|].
  rewrite filter_In, IH, negb_true_iff.
  destruct (String.eqb x v) eqn:E.
  - apply String.eqb_eq in E. subst. split; [tauto | now left].
  - apply String.eqb_neq in E. split; [tauto | intros [H|H]; [congruence | auto]].
Qed.

Lemma filter_keeps_nodup {A : Type} (f : A -> bool) (l : list A) :
  NoDup l -> NoDup (filter f l).
Proof.
  induction 1 as [|x l Hx Hl IH]; simpl; [constructor|].
  destruct (f x); [constructor; [|exact IH] | exact IH].
  intro H. apply filter_In in H. tauto.
Qed.

Lemma unique_nodup l : NoDup (unique l).
Proof.
  induction l as [|x l IH]; simpl; constructor.
  - intro H. apply filter_In in H. destruct H as [_ H].
    now rewrite String.eqb_refl in H.
  - now apply filter_keeps_nodup.
Qed.

Lemma occurrences_absent v l : ~ In v l -> occurrences v l = O.
Proof.
  unfold occurrences. induction l as [|x l IH]; simpl; [reflexivity|].
  intro H. destruct (String.eqb v x) eqn:E.
  - apply String.eqb_eq in E. subst. tauto.
  - apply IH. tauto.
Qed.

Lemma occurrences_present v l : In v l -> (1 <= occurrences v l)%nat.
Proof.
  unfold occurrences. induction l as [|x l IH]; simpl; [tauto|].
  intros [->|H]; [rewrite String.eqb_refl; simpl; lia|].
  destruct (String.eqb v x); simpl; [lia | auto].
Qed.

Lemma total_count_cons e l : total_count (e :: l) = (snd e + total_count l)%nat.
Proof. reflexivity. Qed.

(** The counts of the distinct values of a list add up to its length. *)
Lemma total_count_split (f : string -> nat) x u :
  NoDup u ->
  total_count (map (fun v => (v, f v)) u)
  = ((if existsb (String.eqb x) u then f x else 0)
     + total_count (map (fun v => (v, f v))
                        (filter (fun y => negb (String.eqb x y)) u)))%nat.
Proof.
  induction 1 as [|y u Hy Hu IH]; [reflexivity|].
  cbn [map existsb filter]. rewrite total_count_cons, IH. cbn [snd].
  destruct (String.eqb x y) eqn:E; cbn [orb negb].
  - apply String.eqb_eq in E. subst y.
    assert (Hx : existsb (String.eqb x) u = false).
    { destruct (existsb (String.eqb x) u) eqn:Ex; [|reflexivity].
      apply existsb_exists in Ex. destruct Ex as (z & Hz & Ez).
      apply String.eqb_eq in Ez. subst z. contradiction. }
    rewrite Hx. lia.
  - cbn [map]. rewrite total_count_cons. cbn [snd]. lia.
Qed.

Lemma total_count_unique l :
  total_count (map (fun v => (v, occurrences v l)) (unique l)) = List.length l.
Proof.
  induction l as [|x l IH]; [reflexivity|].
  cbn [unique map List.length]. rewrite total_count_cons. cbn [snd].
  set (rest := filter (fun y => negb (String.eqb x y)) (unique l)).
  assert (Hrest : map (fun v => (v, occurrences v (x :: l))) rest
                  = map (fun v => (v, occurrences v l)) rest).
  { apply map_ext_in. intros v Hv. apply filter_In in Hv.
    destruct Hv as [_ Hv]. apply negb_true_iff in Hv.
    unfold occurrences. cbn [filter].
    rewrite String.eqb_sym, Hv. reflexivity. }
  rewrite Hrest.
  rewrite (total_count_split (fun v => occurrences v l) x (unique l)
             (unique_nodup l)) in IH.
  fold rest in IH.
  assert (Hx : occurrences x (x :: l) = S (occurrences x l)).
  { unfold occurrences. cbn [filter]. now rewrite String.eqb_refl. }
  rewrite Hx.
  destruct (existsb (String.eqb x) (unique l)) eqn:Ex; [lia|].
  assert (H0 : occurrences x l = O).
  { apply occurrences_absent. intro Hin. apply unique_in in Hin.
    assert (existsb (String.eqb x) (unique l) = true)
      by (apply existsb_exists; exists x; split; [exact Hin | apply String.eqb_refl]).
    congruence. }
  lia.
Qed.

Lemma insert_by_count_total e l :
  total_count (insert_by_count e l) = (snd e + total_count l)%nat.
Proof.
  induction l as [|e' l IH]; [reflexivity|].
  cbn [insert_by_count]. destruct (snd e' <=? snd e)%nat; [reflexivity|].
  rewrite !total_count_cons, IH. lia.
Qed.

Lemma insert_by_count_in e l x :
  In x (insert_by_count e l) <-> x = e \/ In x l.
Proof.
  induction l as [|e' l IH]; simpl; [intuition|].
  destruct (snd e' <=? snd e)%nat; simpl; [intuition|].
  rewrite IH. intuition.
Qed.

Lemma insert_by_count_sorted e l :
  StronglySorted by_decreasing_count l ->
  StronglySorted by_decreasing_count (insert_by_count e l).
Proof.
  induction 1 as [|e' l Hl IH He']; simpl; [repeat constructor|].
  destruct (snd e' <=? snd e)%nat eqn:E.
  - apply Nat.leb_le in E. constructor; [now constructor|].
    constructor; [exact E|].
    rewrite Forall_forall in *. intros x Hx.
    specialize (He' x Hx). unfold by_decreasing_count in *. lia.
  - apply Nat.leb_gt in E. constructor; [exact IH|].
    rewrite Forall_forall in *. intros x Hx.
    apply insert_by_count_in in Hx. destruct Hx as [->|Hx]; [|auto].
    unfold by_decreasing_count. lia.
Qed.

Lemma sort_by_count_total l :
  total_count (fold_right insert_by_count [] l) = total_count l.
Proof.
  induction l as [|e l IH]; [reflexivity|].
  cbn [fold_right]. rewrite insert_by_count_total, IH. reflexivity.
Qed.

Lemma sort_by_count_in l x : In x (fold_right insert_by_count [] l) <-> In x l.
Proof.
  induction l as [|e l IH]; [tauto|].
  cbn [fold_right]. rewrite insert_by_count_in, IH. simpl. intuition.
Qed.

Lemma sort_by_count_sorted l :
  StronglySorted by_decreasing_count (fold_right insert_by_count [] l).
Proof.
  induction l; simpl; [constructor | now apply insert_by_count_sorted].
Qed.

Lemma value_counts_total col :
  (total_count (value_counts col) + isnull_sum col = List.length col)%nat.
Proof.
  unfold value_counts.
  rewrite sort_by_count_total, total_count_unique. apply present_length.
Qed.

(** X14: [value_counts] has one entry for each value of the column that
    is not absent, with the number of its cells, which is at least 1;
    the entries come by decreasing count, there are [nunique] of them,
    and their counts and the absent cells add up to the length of the
    column. *)
Theorem value_counts_entries (col : list (option string)) :
  (total_count (value_counts col) + isnull_sum col = List.length col)%nat
  /\ (forall v n,
         In (v, n) (value_counts col)
         <-> In (Some v) col /\ n = occurrences v (present col))
  /\ (forall v n, In (v, n) (value_counts col) -> (1 <= n)%nat)
  /\ StronglySorted by_decreasing_count (value_counts col)
  /\ List.length (value_counts col) = nunique col.
Proof.
  unfold value_counts. set (vs := present col).
  assert (Hin : forall v n,
             In (v, n) (fold_right insert_by_count []
                          (map (fun v => (v, occurrences v vs)) (unique vs)))
             <-> In (Some v) col /\ n = occurrences v vs).
  { intros v n. rewrite sort_by_count_in, in_map_iff. split.
    - intros (w & [= <- <-] & Hw). apply unique_in, present_in in Hw. tauto.
    - intros [Hv ->]. exists v. split; [reflexivity|].
      now apply unique_in, present_in. }
  split; [apply value_counts_total|].
  split; [exact Hin|].
  split.
  { intros v n H. apply Hin in H. destruct H as [Hv ->].
    now apply occurrences_present, present_in. }
  split; [apply sort_by_count_sorted|].
  unfold nunique. fold vs.
  assert (Hlen : forall l, List.length (fold_right insert_by_count [] l)
                           = List.length l).
  { induction l as [|e l IH]; [reflexivity|]. cbn [fold_right List.length].
    rewrite <- IH. generalize (fold_right insert_by_count [] l). intro s.
    induction s as [|e' s IHs]; [reflexivity|]. cbn [insert_by_count].
    destruct (snd e' <=? snd e)%nat; [reflexivity|]. cbn [List.length]. now rewrite IHs. }
  now rewrite Hlen, length_map.
Qed.

Lemma value_counts_entries_witness :
  (1 <= 2)%nat
  /\ value_counts [Some "a"; None; Some "b"; Some "a"]
     = [("a", 2%nat); ("b", 1%nat)].
Proof.
  split; [|reflexivity].
  apply (proj1 (proj2 (proj2 (value_counts_entries
                                [Some "a"; None; Some "b"; Some "a"]))) "a").
  left. reflexivity.
Defined.

Lemma fold_left_min_le ts t :
  (fold_left Z.min ts t <= t)%Z
  /\ forall x, In x ts -> (fold_left Z.min ts t <= x)%Z.
Proof.
  revert t; induction ts as [|y ts IH]; intro t; simpl; [split; [lia | tauto]|].
  destruct (IH (Z.min t y)) as [H1 H2]. split; [lia|].
  intros x [<-|Hx]; [lia | auto].
Qed.

Lemma fold_left_max_ge ts t :
  (t <= fold_left Z.max ts t)%Z
  /\ forall x, In x ts -> (x <= fold_left Z.max ts t)%Z.
Proof.
  revert t; induction ts as [|y ts IH]; intro t; simpl; [split; [lia | tauto]|].
  destruct (IH (Z.max t y)) as [H1 H2]. split; [lia|].
  intros x [<-|Hx]; [lia | auto].
Qed.

Lemma timestamps_in col t :
  In t (timestamps col) <-> In (Some (Timestamp t)) col.
Proof.
  induction col as [|[[text|z]|] col IH]; simpl.
  - tauto.
  - rewrite IH. split; [auto | intros [H|H]; [discriminate | exact H]].
  - rewrite IH. split; intros [H|H]; auto; left; congruence.
  - rewrite IH. split; [auto | intros [H|H]; [discriminate | exact H]].
Qed.

(** The first and the last date bracket every timestamp of the column. *)
Lemma date_range_brackets col a b :
  date_min col = Some a -> date_max col = Some b ->
  forall t, In (Some (Timestamp t)) col -> (a <= t <= b)%Z.
Proof.
  unfold date_min, date_max. intros Ha Hb t Ht.
  apply timestamps_in in Ht.
  destruct (timestamps col) as [|t0 ts]; [discriminate|].
  injection Ha as <-. injection Hb as <-.
  destruct (fold_left_min_le ts t0) as [Hmin0 Hmin].
  destruct (fold_left_max_ge ts t0) as [Hmax0 Hmax].
  destruct Ht as [<-|Ht]; [lia|].
  specialize (Hmin t Ht). specialize (Hmax t Ht). lia.
Qed.

Lemma unique_length l : (List.length (unique l) <= List.length l)%nat.
Proof.
  induction l as [|x l IH]; simpl; [lia|].
  pose proof (filter_length_le (fun y => negb (String.eqb x y)) (unique l)). lia.
Qed.

Lemma dropna_values_all (col : list (option Q)) :
  (forall c, In c col -> c <> None) ->
  List.length (dropna_values col) = List.length col.
Proof.
  induction col as [|[v|] col IH]; intro H; simpl.
  - reflexivity.
  - rewrite IH; [reflexivity | intros c Hc; apply H; now right].
  - exfalso. apply (H None); [now left | reflexivity].
Qed.

Lemma mean_of_present (col : list (option Q)) :
  col <> [] -> (forall c, In c col -> c <> None) -> exists m, mean col = Some m.
Proof.
  intros Hne Hall. pose proof (dropna_values_all col Hall) as Hlen.
  unfold mean. destruct (dropna_values col) as [|v vs]; [|eauto].
  destruct col; [congruence | discriminate].
Qed.

Lemma median_of_present (col : list (option Q)) :
  col <> [] -> (forall c, In c col -> c <> None) -> exists m, median col = Some m.
Proof.
  intros Hne Hall. destruct (median col) as [m|] eqn:E; [eauto|].
  exfalso. destruct col as [|c col]; [congruence|].
  apply (Hall c); [now left|].
  apply (proj1 (median_none (c :: col)) E). now left.
Qed.

(** X15: on the cleaned table the summary counts every row once in the
    status distribution (the purpose distribution misses the rows
    without purpose), never reports more customers than rows, and
    brackets every application date between the first and the last
    date; on an empty table every statistic is absent; on a table with
    rows the mean and the median loan amount are above 0, the mean
    interest rate is between 0 and 50 and the mean credit score between
    300 and 850. *)
Theorem summary_of_clean_table
  (parse_datetime : list string -> string -> option Z) (dtypes : TextDtypes)
  (df out : DataFrame) :
  clean parse_datetime dtypes df = Some out ->
  let s := generate_summary_statistics out in
  summary_records s = List.length out
  /\ total_count (summary_status s) = List.length out
  /\ (total_count (summary_purpose s) + isnull_sum (map purpose out)
      = List.length out)%nat
  /\ (summary_customers s <= List.length out)%nat
  /\ (out = [] ->
      summary_customers s = O
      /\ summary_first_date s = None /\ summary_last_date s = None
      /\ summary_mean_amount s = None /\ summary_median_amount s = None
      /\ summary_mean_rate s = None /\ summary_mean_score s = None)
  /\ (out <> [] ->
      (1 <= summary_customers s)%nat
      /\ exists mean_amount median_amount mean_rate mean_score,
          summary_mean_amount s = Some mean_amount /\ 0 < mean_amount
          /\ summary_median_amount s = Some median_amount /\ 0 < median_amount
          /\ summary_mean_rate s = Some mean_rate
          /\ 0 <= mean_rate /\ mean_rate <= 50
          /\ summary_mean_score s = Some mean_score
          /\ 300 <= mean_score /\ mean_score <= 850)
  /\ (forall first last t,
         summary_first_date s = Some first -> summary_last_date s = Some last ->
         In (Some (Timestamp t)) (map application_date out) ->
         (first <= t <= last)%Z).
Proof.
  intros Hclean s.
  pose proof (clean_rows_cleaned parse_datetime dtypes df out Hclean) as Hrows.
  rewrite Forall_forall in Hrows.
  assert (Hrange : forall r, In r out -> satisfies_ranges r).
  { intros r Hr. apply in_range_iff. apply (Hrows r Hr). }
  assert (Hcrit : forall r, In r out ->
                            customer_id r <> None /\ loan_status r <> None).
  { intros r Hr. destruct (Hrows r Hr) as (Hc & _).
    apply has_critical_fields_iff in Hc. tauto. }
  split; [reflexivity|].
  split.
  { pose proof (value_counts_total (map loan_status out)) as Hsum.
    change (summary_status s) with (value_counts (map loan_status out)).
    assert (H0 : isnull_sum (map loan_status out) = O).
    { unfold isnull_sum. rewrite (proj2 (length_zero_iff_nil _)); [reflexivity|].
      destruct (filter isnull (map loan_status out)) as [|c l] eqn:E; [reflexivity|].
      exfalso. assert (Hc : In c (filter isnull (map loan_status out)))
        by (rewrite E; now left).
      apply filter_In in Hc. destruct Hc as [Hc Hnull].
      apply in_map_iff in Hc. destruct Hc as (r & <- & Hr).
      destruct (Hcrit r Hr) as [_ Hs]. now destruct (loan_status r). }
    rewrite length_map in Hsum. lia. }
  split.
  { pose proof (value_counts_total (map purpose out)) as Hsum.
    now rewrite length_map in Hsum. }
  split.
  { change (summary_customers s) with (nunique (map customer_id out)).
    unfold nunique.
    pose proof (unique_length (present (map customer_id out))).
    pose proof (present_length (map customer_id out)) as Hp.
    rewrite length_map in Hp. lia. }
  split; [intros ->; repeat split|].
  split.
  { intro Hne. destruct out as [|r0 out']; [congruence|]. clear Hne.
    set (out := r0 :: out') in *.
    assert (Hne : forall A (f : LoanRecord -> A), map f out <> [])
      by (intros; discriminate).
    assert (Hpresent : forall (f : LoanRecord -> option Q),
               (forall r, In r out -> f r <> None) ->
               forall c, In c (map f out) -> c <> None).
    { intros f Hf c Hc. apply in_map_iff in Hc. destruct Hc as (r & <- & Hr). auto. }
    assert (Ham : forall r, In r out -> loan_amount r <> None).
    { intros r Hr. destruct (Hrange r Hr) as ((a & -> & _) & _). discriminate. }
    assert (Hrt : forall r, In r out -> interest_rate r <> None).
    { intros r Hr. destruct (Hrange r Hr) as (_ & (a & -> & _) & _). discriminate. }
    assert (Hsc : forall r, In r out -> credit_score r <> None).
    { intros r Hr. destruct (Hrange r Hr) as (_ & _ & (a & -> & _) & _). discriminate. }
    split.
    { change (summary_customers s) with (nunique (map customer_id out)).
      unfold nunique, out. cbn [map].
      destruct (Hcrit r0 (or_introl eq_refl)) as [Hc _].
      destruct (customer_id r0); [simpl; lia | congruence]. }
    destruct (mean_of_present _ (Hne _ loan_amount) (Hpresent _ Ham)) as (ma & Hma).
    destruct (median_of_present _ (Hne _ loan_amount) (Hpresent _ Ham)) as (md & Hmd).
    destruct (mean_of_present _ (Hne _ interest_rate) (Hpresent _ Hrt)) as (mr & Hmr).
    destruct (mean_of_present _ (Hne _ credit_score) (Hpresent _ Hsc)) as (ms & Hms).
    exists ma, md, mr, ms.
    assert (Hpos : forall v, In (Some v) (map loan_amount out) -> 0 < v).
    { intros v Hv. apply in_map_iff in Hv. destruct Hv as (r & Hv & Hr).
      destruct (Hrange r Hr) as ((a & Ha & Hapos) & _). congruence. }
    split; [exact Hma|]. split; [exact (mean_positive _ _ Hma Hpos)|].
    split; [exact Hmd|].
    split.
    { apply (median_convex (fun v => 0 < v) (map loan_amount out) md);
        [|exact Hpos|exact Hmd].
      intros a b Ha Hb.
      assert (E : (a + b) / 2 == (1 # 2) * a + (1 # 2) * b) by field.
      rewrite E. lra. }
    split; [exact Hmr|].
    assert (Hrate : forall v, In (Some v) (map interest_rate out) ->
                              0 <= v /\ v <= 50).
    { intros v Hv. apply in_map_iff in Hv. destruct Hv as (r & Hv & Hr).
      destruct (Hrange r Hr) as (_ & (i & Hi & Hbounds) & _).
      assert (i = v) by congruence. subst i. exact Hbounds. }
    destruct (mean_in_bounds _ _ _ _ Hmr Hrate) as [Hr1 Hr2].
    split; [exact Hr1|]. split; [exact Hr2|].
    split; [exact Hms|].
    assert (Hscore : forall v, In (Some v) (map credit_score out) ->
                               300 <= v /\ v <= 850).
    { intros v Hv. apply in_map_iff in Hv. destruct Hv as (r & Hv & Hr).
      destruct (Hrange r Hr) as (_ & _ & (c & Hc & Hbounds) & _).
      assert (c = v) by congruence. subst c. exact Hbounds. }
    exact (mean_in_bounds _ _ _ _ Hms Hscore). }
  intros first last t Hfirst Hlast Ht.
  exact (date_range_brackets _ _ _ Hfirst Hlast t Ht).
Qed.

Lemma summary_of_clean_table_witness :
  exists out,
    clean parse_iso_column (read_csv_dtypes median_sample) median_sample
    = Some out
    /\ summary_records (generate_summary_statistics out) = 3%nat
    /\ total_count (summary_status (generate_summary_statistics out)) = 3%nat
    /\ summary_first_date (generate_summary_statistics out) = Some 20230105%Z
    /\ summary_last_date (generate_summary_statistics out) = Some 20230108%Z.
Proof.
  eexists. split; [vm_compute; reflexivity|].
  split; [reflexivity|].
  split; [|split; reflexivity].
  refine (proj1 (proj2 (summary_of_clean_table parse_iso_column
                          (read_csv_dtypes median_sample) median_sample _ _))).
  vm_compute. reflexivity.
Defined.

(** ** The median fill leaves the median where it is *)

Lemma filled_values_length m col :
  List.length (filled_values m col)
  = (List.length (dropna_values col) + isnull_sum col)%nat.
Proof.
  induction col as [|[v|] col IH]; [reflexivity| |];
    rewrite isnull_sum_cons; simpl in *; lia.
Qed.

Lemma filled_values_count f m col :
  count_where f (filled_values m col)
  = (count_where f (dropna_values col)
     + if f m then isnull_sum col else 0)%nat.
Proof.
  unfold count_where.
  induction col as [|[v|] col IH]; [simpl; now destruct (f m)| |];
    rewrite isnull_sum_cons; simpl in *.
  - destruct (f v), (f m); simpl; lia.
  - destruct (f m); simpl; lia.
Qed.

Lemma count_where_split_lt m l :
  (count_where (fun v => Qltb v m) l + count_where (fun v => Qleb m v) l
   = List.length l)%nat.
Proof.
  unfold count_where. induction l as [|x l IH]; simpl; [reflexivity|].
  destruct (Qltb x m) eqn:E1, (Qleb m x) eqn:E2; simpl; try lia;
    rewrite ?Qltb_lt, ?Qltb_ge, ?Qleb_le, ?Qleb_gt in *; lra.
Qed.

Lemma count_where_split_gt m l :
  (count_where (fun v => Qltb m v) l + count_where (fun v => Qleb v m) l
   = List.length l)%nat.
Proof.
  unfold count_where. induction l as [|x l IH]; simpl; [reflexivity|].
  destruct (Qltb m x) eqn:E1, (Qleb x m) eqn:E2; simpl; try lia;
    rewrite ?Qltb_lt, ?Qltb_ge, ?Qleb_le, ?Qleb_gt in *; lra.
Qed.

(** In a sorted list, the places after the values below [m] and before
    the values above [m] hold [m]. *)
Lemma sorted_plateau s m i :
  StronglySorted Qle s ->
  (count_where (fun v => Qltb v m) s <= i)%nat ->
  (i < count_where (fun v => Qleb v m) s)%nat ->
  nth i s 0 == m.
Proof.
  intros Hs Hlo Hhi.
  assert (Hi : (i < List.length s)%nat).
  { pose proof (count_where_split_gt m s). lia. }
  pose proof (sorted_count_le s i Hs Hi) as Hle.
  pose proof (sorted_count_ge s i Hs Hi) as Hge.
  apply Qle_antisym.
  - destruct (Qlt_le_dec m (nth i s 0)) as [H|H]; [exfalso | exact H].
    assert (M : (count_where (fun v => Qleb (nth i s 0%Q) v) s
                 <= count_where (fun v => Qltb m v) s)%nat).
    { apply count_where_mono. intros v Hv.
      apply Qleb_le in Hv. apply Qltb_lt. lra. }
    pose proof (count_where_split_gt m s). lia.
  - destruct (Qlt_le_dec (nth i s 0) m) as [H|H]; [exfalso | exact H].
    assert (M : (count_where (fun v => Qleb v (nth i s 0%Q)) s
                 <= count_where (fun v => Qltb v m) s)%nat).
    { apply count_where_mono. intros v Hv.
      apply Qleb_le in Hv. apply Qltb_lt. lra. }
    lia.
Qed.

Lemma dropna_values_some l : dropna_values (map Some l) = l.
Proof. induction l as [|x l IH]; simpl; [reflexivity | now rewrite IH]. Qed.

(** Adding copies of the median to the values keeps the median. *)
Lemma median_after_fill col m :
  median col = Some m ->
  (1 <= isnull_sum col)%nat ->
  exists m', median (map Some (filled_values m col)) = Some m' /\ m' == m.
Proof.
  intros Hm Hk.
  destruct (median_is_median col m Hm) as [Hbelow Habove].
  set (l0 := dropna_values col) in *.
  set (l := filled_values m col).
  assert (Hlen : List.length l = (List.length l0 + isnull_sum col)%nat)
    by apply filled_values_length.
  assert (Hmm : Qleb m m = true) by (apply Qleb_le; lra).
  assert (Hnm : Qltb m m = false) by (apply Qltb_ge; lra).
  pose proof (filled_values_count (fun v => Qleb v m) m col) as Hcle.
  pose proof (filled_values_count (fun v => Qltb v m) m col) as Hclt.
  cbv beta in Hcle, Hclt. rewrite Hmm in Hcle. rewrite Hnm in Hclt.
  fold l l0 in Hcle, Hclt.
  pose proof (count_where_split_lt m l0) as Hsplit0.
  unfold median. rewrite dropna_values_some. fold l.
  pose proof (sort_values_sorted l) as Hs.
  pose proof (sort_values_length l) as Hsl.
  pose proof (count_where_sort_values (fun v => Qleb v m) l) as Hc1.
  pose proof (count_where_sort_values (fun v => Qltb v m) l) as Hc2.
  set (s := sort_values l) in *.
  pose proof (sorted_plateau s m) as Hplateau.
  pose proof (half_of_odd (List.length s)) as Hodd.
  pose proof (half_of_even (List.length s)) as Heven.
  destruct (List.length s) as [|n] eqn:En; [lia|]. rewrite <- En in *.
  remember (List.length s / 2)%nat as h eqn:Eh. clear Eh.
  destruct (Nat.odd (List.length s)).
  - specialize (Hodd eq_refl). eexists. split; [reflexivity|].
    apply Hplateau; [exact Hs | lia | lia].
  - specialize (Heven eq_refl). eexists. split; [reflexivity|].
    rewrite (Hplateau (h - 1)%nat Hs), (Hplateau h Hs) by lia.
    field.
Qed.

Lemma fill_credit_score_values m kept :
  map credit_score (map (fill_row (Some m)) kept)
  = map Some (filled_values m (map credit_score kept)).
Proof.
  unfold filled_values. rewrite !map_map. apply map_ext. intro r.
  destruct (fill_row_cells (Some m) r) as (-> & _).
  now destruct (credit_score r).
Qed.

Lemma no_null_fill_row m kept :
  isnull_sum (map credit_score kept) = O ->
  map credit_score (map (fill_row m) kept) = map credit_score kept.
Proof.
  intro H. rewrite map_map. apply map_ext_in. intros r Hr.
  destruct (fill_row_cells m r) as (-> & _).
  destruct (credit_score r) eqn:E; [reflexivity|].
  exfalso. unfold isnull_sum in H.
  assert (Hin : In None (filter isnull (map credit_score kept))).
  { apply filter_In. split; [|reflexivity]. rewrite <- E. now apply in_map. }
  destruct (filter isnull (map credit_score kept)); [destruct Hin | discriminate].
Qed.

(** X16: filling the absent credit scores with the median does not
    move the median: the median of the credit scores after the handler
    is the median of the scores that were present. *)
Theorem handle_missing_values_keeps_median (df : DataFrame) (m : Q) :
  median (map credit_score (filter has_critical_fields df)) = Some m ->
  exists m',
    median (map credit_score (fst (handle_missing_values df))) = Some m'
    /\ m' == m.
Proof.
  intro Hm. rewrite handle_missing_values_rows, Hm.
  set (kept := filter has_critical_fields df) in *.
  destruct (isnull_sum (map credit_score kept)) as [|k] eqn:Ek.
  - rewrite no_null_fill_row by exact Ek. exists m. split; [exact Hm | reflexivity].
  - rewrite fill_credit_score_values. apply median_after_fill; [exact Hm | lia].
Qed.

Lemma handle_missing_values_keeps_median_witness :
  exists m',
    median (map credit_score (fst (handle_missing_values median_sample))) = Some m'
    /\ m' == 670.
Proof.
  destruct (handle_missing_values_keeps_median median_sample ((640 + 700) / 2))
    as (m' & Hm' & E).
  - vm_compute. reflexivity.
  - exists m'. split; [exact Hm'|]. rewrite E. reflexivity.
Defined.
